(** * Traffic: request validation, content negotiation and issue pipeline

    A shallow embedding of [src/issues.ts], [src/mime.ts], [src/types.ts]
    and [src/traffic.ts], together with the properties of the pipeline
    that the specification states.

    Conventions of the embedding.
    - JavaScript values that flow through the pipeline untyped
      ([unknown], [any]) are elements of [JsValue].
    - An [async] function is a computation in the monad [M]: it appends
      to the [console.error] log and either returns or throws.  The
      pipeline awaits every promise it creates in sequence, so the order
      of effects is the order of the source text.
    - External collaborators (the schema engine, the [content-type]
      package, [JSON], multipart decoding) are the members of the class
      [Engine]; every definition and theorem is parametric in it. *)

From Stdlib Require Import ZArith String Ascii List.
From stdpp Require Import base option list strings pretty gmap.

Set Warnings "-register-all".
Local Open Scope Z_scope.
Local Open Scope string_scope.
Local Open Scope list_scope.

(** ** JavaScript values and errors *)

Inductive JsValue : Type :=
| JUndefined
| JNull
| JBool (b : bool)
| JNum (n : Z)            (* the numbers of the pipeline are status codes *)
| JStr (s : string)
| JArr (items : list JsValue)
| JObj (props : list (string * JsValue)).

(** An [Error] instance: its constructor name and its message. *)
Record JsError : Type := MkError { err_name : string; err_message : string }.

Definition TypeError (msg : string) : JsError := MkError "TypeError" msg.
Definition PlainError (msg : string) : JsError := MkError "Error" msg.
Definition RangeError (msg : string) : JsError := MkError "RangeError" msg.

(** ** The schema engine (zod), as a capability

    A [ZodError] carries the list [issues].  The engine reports a failure
    only together with at least one issue, which is what the source relies
    on when it writes [error.issues[0]!]; the list is therefore kept as a
    head and a tail. *)

Record ZodIssue : Type := MkZodIssue {
  zi_code : string;
  zi_path : list string;
  zi_message : string
}.

Record ZodError : Type := MkZodError {
  issues_head : ZodIssue;
  issues_tail : list ZodIssue
}.

Definition zod_issues (e : ZodError) : list ZodIssue :=
  issues_head e :: issues_tail e.

Inductive SafeParseResult : Type :=
| ParseSuccess (data : JsValue)
| ParseFailure (error : ZodError).

(** A schema is what [safeParse] does with a value. *)
Definition ZodType : Type := JsValue → SafeParseResult.

Definition safeParse (shape : ZodType) (value : JsValue) : SafeParseResult :=
  shape value.

(** ** Effects: the [console.error] log and exceptions *)

Inductive Cause : Type :=
| CauseError (e : JsError)
| CauseZod (e : ZodError).

(** One call [console.error(new Error(message, { cause }))]. *)
Record LogEntry : Type := MkLog {
  log_message : string;
  log_cause : option Cause
}.

Inductive Outcome (A : Type) : Type :=
| Returned (a : A)
| Thrown (e : JsError).
Arguments Returned {A} a.
Arguments Thrown {A} e.

Definition M (A : Type) : Type := (list LogEntry * Outcome A)%type.

Definition ret {A} (a : A) : M A := ([], Returned a).
Definition throw {A} (e : JsError) : M A := ([], Thrown e).
Definition console_error (entry : LogEntry) : M unit := ([entry], Returned tt).

Definition bind {A B} (m : M A) (k : A → M B) : M B :=
  match m with
  | (l, Returned a) => let '(l', r) := k a in (l ++ l', r)
  | (l, Thrown e) => (l, Thrown e)
  end.

(** [try { m } catch (error) { h error }] *)
Definition try_catch {A} (m : M A) (h : JsError → M A) : M A :=
  match m with
  | (l, Thrown e) => let '(l', r) := h e in (l ++ l', r)
  | done => done
  end.

Definition lift {A} (o : Outcome A) : M A := ([], o).

#[global] Instance M_ret : MRet M := @ret.
#[global] Instance M_bind : MBind M := λ A B k m, bind m k.

(** ** External collaborators *)

Record ParsedMediaType : Type := MkParsed {
  ct_type : string;
  ct_parameters : list (string * string)
}.

Class Engine : Type := {
  (** [parse] of the [content-type] package: throws on a malformed value *)
  ct_parse : string → Outcome ParsedMediaType;
  (** [JSON.stringify]: [None] when it returns [undefined] *)
  JSON_stringify : JsValue → option string;
  (** [JSON.parse]: throws a [SyntaxError] on malformed text *)
  JSON_parse : string → Outcome JsValue;
  (** [String(v)] for a [v] that is not already a string *)
  ToString : JsValue → string;
  (** [z.string()], [z.literal(s)] and [z.object(shape)] *)
  z_string : ZodType;
  z_literal : string → ZodType;
  z_object : list (string * ZodType) → ZodType;
  (** multipart decoding of a body, given the [Content-Type] header *)
  decode_form_data : option string → string → Outcome JsValue
}.

(** ** Strings as JavaScript uses them here *)

(** [s.split(sep)] for a one-character separator. *)
Fixpoint js_split (sep : ascii) (s : string) : list string :=
  match s with
  | EmptyString => [EmptyString]
  | String c rest =>
      if Ascii.eqb c sep then EmptyString :: js_split sep rest
      else match js_split sep rest with
           | piece :: pieces => String c piece :: pieces
           | [] => [String c EmptyString]
           end
  end.

(** [s.split(sep, limit)] keeps the first [limit] pieces. *)
Definition js_split_limit (sep : ascii) (limit : nat) (s : string) : list string :=
  take limit (js_split sep s).

(** [!x] for [x : string | undefined]: absent and empty are falsy. *)
Definition falsy (x : option string) : bool :=
  match x with
  | Some s => String.eqb s ""
  | None => true
  end.

(** [arr.pop()] on a string array. *)
Definition js_pop (arr : list string) : option string := last arr.

Fixpoint contains_char (c : ascii) (s : string) : bool :=
  match s with
  | EmptyString => false
  | String d rest => Ascii.eqb d c || contains_char c rest
  end.

(** Header names are matched without regard to case. *)
Definition lower_ascii (c : ascii) : ascii :=
  let n := nat_of_ascii c in
  if (Nat.leb 65 n && Nat.leb n 90)%bool then ascii_of_nat (n + 32) else c.

Fixpoint lower (s : string) : string :=
  match s with
  | EmptyString => EmptyString
  | String c rest => String (lower_ascii c) (lower rest)
  end.

(** ** src/issues.ts *)

Definition HeadersInit : Type := list (string * string).

(** What a factory returns: [Omit<Issue, "code">], with the fields the
    interface does not name collected in [fields_extra]. *)
Record IssueFields : Type := MkFields {
  fields_status : Z;
  fields_deflected : option bool;
  fields_headers : option HeadersInit;
  fields_extra : list (string * JsValue)
}.

(** [interface Issue]; [deflected] and [headers] are optional members. *)
Record Issue : Type := MkIssue {
  code : string;
  status : Z;
  deflected : option bool;
  headers : option HeadersInit;
  extra : list (string * JsValue)
}.

(** The arguments the pipeline hands to a factory. *)
Inductive Arg : Type :=
| ArgError (error : ZodError)
| ArgValue (v : JsValue).

(** [interface IssueFactory]: a call either returns the fields or throws. *)
Abbreviation IssueFactory := (list Arg → Outcome IssueFields).

(** [class Issues]: the protected member [issues]. *)
Record Issues : Type := MkIssues { factories : gmap string IssueFactory }.

(** [Issues.new(code, ...args)].  [code] ranges over the keys of the
    registry ([K extends keyof ISSUES]); the missing case is a code that
    the object does not have at all.  The member names that a plain
    object inherits ([constructor], [toString], ...) are no keys of
    [ISSUES] and lie outside this model. *)
Definition Issues_new (self : Issues) (code : string) (args : list Arg)
  : Outcome Issue :=
  match factories self !! code with
  | None => Thrown (TypeError "this.issues[code] is not a function")
  | Some factory =>
      match factory args with
      | Thrown e => Thrown e
      | Returned issue =>
          Returned {|
            code := code;
            status := fields_status issue;
            deflected := Some (default false (fields_deflected issue));
            headers := fields_headers issue;
            extra := fields_extra issue
          |}
      end
  end.

(** [Issues.override(code, factory)] *)
Definition Issues_override (self : Issues) (code : string) (factory : IssueFactory)
  : Issues :=
  MkIssues (<[code := factory]> (factories self)).

Definition zod_issue_to_js (i : ZodIssue) : JsValue :=
  JObj [("code", JStr (zi_code i));
        ("path", JArr (JStr <$> zi_path i));
        ("message", JStr (zi_message i))].

(** [description] and [issues] of a validation issue *)
Definition validation_fields (error : ZodError) : list (string * JsValue) :=
  [("description", JStr (zi_message (issues_head error)));
   ("issues", JArr (zod_issue_to_js <$> zod_issues error))].

(** The four validation factories share one body:
    [(error: ZodError) => ({ status: 400, deflected: true,
       description: error.issues[0]!.message, issues: error.issues })].
    Called without a [ZodError], reading [error.issues] throws. *)
Definition validation_issue : IssueFactory := λ args,
  match args with
  | ArgError error :: _ =>
      Returned {|
        fields_status := 400;
        fields_deflected := Some true;
        fields_headers := None;
        fields_extra := validation_fields error
      |}
  | _ => Thrown (TypeError "Cannot read properties of undefined (reading 'issues')")
  end.

Definition arg_to_js (a : Arg) : JsValue :=
  match a with
  | ArgValue v => v
  | ArgError error => JObj [("issues", JArr (zod_issue_to_js <$> zod_issues error))]
  end.

Definition unsupported_content_type_fields (supported : JsValue)
  : list (string * JsValue) :=
  [("description", JStr "Request content type is not supported.");
   ("supported", supported)].

Definition unsupported_content_type_issue : IssueFactory := λ args,
  let supported := default JUndefined (arg_to_js <$> head args) in
  Returned {|
    fields_status := 400;
    fields_deflected := Some true;
    fields_headers := None;
    fields_extra := unsupported_content_type_fields supported
  |}.

Definition unsupported_content_issue : IssueFactory := λ _,
  Returned {|
    fields_status := 400;
    fields_deflected := Some false;
    fields_headers := None;
    fields_extra :=
      [("description", JStr "Server is unable to parse the provided content.")]
  |}.

Definition unknown_fields : list (string * JsValue) :=
  [("description", JStr "Unknown server error.")].

Definition unknown_issue : IssueFactory := λ _,
  Returned {|
    fields_status := 500;
    fields_deflected := Some false;
    fields_headers := None;
    fields_extra := unknown_fields
  |}.

(** [export const trafficIssues] *)
Definition trafficIssues : gmap string IssueFactory :=
  <["/traffic/request/invalid-params" := validation_issue]> (
  <["/traffic/request/invalid-query" := validation_issue]> (
  <["/traffic/request/invalid-headers" := validation_issue]> (
  <["/traffic/request/invalid-content" := validation_issue]> (
  <["/traffic/request/unsupported-content-type" := unsupported_content_type_issue]> (
  <["/traffic/request/unsupported-content" := unsupported_content_issue]> (
  <["/traffic/unknown" := unknown_issue]> ∅)))))).

(** The object an [Issue] is when it is handed to a serializer. *)
Definition issue_to_js (issue : Issue) : JsValue :=
  JObj ([("status", JNum (status issue))]
        ++ match deflected issue with
           | Some b => [("deflected", JBool b)]
           | None => []
           end
        ++ match headers issue with
           | Some hs => [("headers", JObj (prod_map id JStr <$> hs))]
           | None => []
           end
        ++ extra issue
        ++ [("code", JStr (code issue))]).

(** ** Requests and responses, as the pipeline sees them *)

(** [new URL(request.url)]: the pipeline reads only [searchParams]. *)
Record URL : Type := MkURL {
  href : string;
  searchParams : list (string * string)
}.

(** [searchParams.get(key)]: the first value of that name, or [null]. *)
Fixpoint searchParams_get (params : list (string * string)) (key : string)
  : option string :=
  match params with
  | [] => None
  | (name, value) :: rest =>
      if String.eqb name key then Some value else searchParams_get rest key
  end.

(** A [Request]: [request.headers.get] is [header_get]; the body is the
    text that [request.text()] yields. *)
Record Request : Type := MkRequest {
  request_url : URL;
  header_get : string → option string;
  request_body : string
}.

(** [new Response(body, { status, headers })], as the constructor is
    called: the body and the init members.  [resp_spread] holds the
    members that [Traffic.response] spreads into the init dictionary.
    What the constructor does with them (the encoding of the body, the
    header list) belongs to the transport layer.  The constructor
    refuses a status outside 200..599 and a body under a null body
    status: [Traffic.response], which takes both from the handler,
    models the refusal; an issue response is recorded as the call that
    is made for it (the built-in issues have status 400 or 500). *)
Record Response : Type := MkResponse {
  resp_status : Z;
  resp_body : JsValue;
  resp_headers : option HeadersInit;
  resp_spread : option HeadersInit
}.

(** [x ? ... : null] on [x : string | null] *)
Definition truthy (x : option string) : bool := negb (falsy x).

(** [string | null] and [string | undefined] as values *)
Definition or_null (x : option string) : JsValue :=
  match x with Some s => JStr s | None => JNull end.
Definition or_undefined (x : option string) : JsValue :=
  match x with Some s => JStr s | None => JUndefined end.

(** ** src/mime.ts *)

Record Mime : Type := MkMime {
  mime_type : string;
  media : string;
  subtype : string;
  protocol : string;
  suffix : option string;
  mime_params : list (string * string)
}.

(** A stage either returns early with a response ([inl]) or hands its
    output to the rest of the function body ([inr]). *)
Abbreviation Stage A := (M (Response + A)).

Section Program.
Context {engine : Engine}.

(** [new Mime(mimeType)] *)
Definition new_Mime (mimeType : string) : Outcome Mime :=
  match ct_parse mimeType with
  | Thrown e => Thrown e
  | Returned parsed =>
      let by_slash := js_split_limit "/" 2 (ct_type parsed) in
      let by_plus := js_split_limit "+" 2 (ct_type parsed) in
      let media := by_slash !! 0%nat in
      let subtype := by_slash !! 1%nat in
      let protocol := by_plus !! 0%nat in
      let suffix := by_plus !! 1%nat in
      if falsy media || falsy subtype || falsy protocol || falsy suffix
      then Thrown (PlainError "Invalid mime type.")
      else Returned {|
        mime_type := ct_type parsed;
        media := default "" media;
        subtype := default "" subtype;
        protocol := default "" protocol;
        suffix := suffix;
        mime_params := ct_parameters parsed
      |}
  end.

(** [mime?.suffix ?? mime?.subtype], the key both codecs switch on. *)
Definition codec_key (mime : option Mime) : option string :=
  match mime with
  | None => None
  | Some m => match suffix m with
              | Some s => Some s
              | None => Some (subtype m)
              end
  end.

(** [x ? new Mime(x) : null] *)
Definition Mime_of (x : option string) : M (option Mime) :=
  match x with
  | Some s => if truthy x then m ← lift (new_Mime s); mret (Some m) else mret None
  | None => mret None
  end.

(** ** src/traffic.ts: the codecs *)

(** [static async parse(request)] *)
Definition Traffic_parse (request : Request) : M (option JsValue) :=
  let contentType := header_get request "Content-Type" in
  mime ← Mime_of contentType;
  match codec_key mime with
  | Some key =>
      if String.eqb key "json" then
        value ← lift (JSON_parse (request_body request)); mret (Some value)
      else if String.eqb key "plain" then
        mret (Some (JStr (request_body request)))
      else if String.eqb key "form-data" then
        value ← lift (decode_form_data contentType (request_body request));
        mret (Some value)
      else mret None
  | None => mret None
  end.

(** [String(data)] *)
Definition js_String (data : JsValue) : string :=
  match data with
  | JStr s => s
  | other => ToString other
  end.

(** [static async seralize(data, type)]; the [value] member is a string,
    or [undefined] when [JSON.stringify] yields that. *)
Definition Traffic_seralize (data : JsValue) (type : string) : M (option JsValue) :=
  mime ← Mime_of (Some type);
  match codec_key mime with
  | Some key =>
      if String.eqb key "json" then
        mret (Some (or_undefined (JSON_stringify data)))
      else if String.eqb key "plain" then
        mret (Some (JStr (js_String data)))
      else mret None
  | None => mret None
  end.

(** ** src/traffic.ts: the [Traffic] instance *)

Record Traffic : Type := MkTraffic {
  issues : Issues;
  parse : Request → M (option JsValue);
  serialize : JsValue → string → M (option JsValue);
  defaultResponseType : string
}.

(** [interface TrafficOptions]; [None] is a call without options. *)
Definition TrafficOptions : Type := option (gmap string IssueFactory).

(** [constructor(options?)]: [{ ...trafficIssues, ...options?.issues }] *)
Definition new_Traffic (options : TrafficOptions) : Traffic := {|
  issues := MkIssues (default ∅ options ∪ trafficIssues);
  parse := Traffic_parse;
  serialize := Traffic_seralize;
  defaultResponseType := "application/json"
|}.

(** The init member [status] is an [unsigned short]: the constructor
    reads an integer modulo 2^16. *)
Definition to_uint16 (n : Z) : Z := Z.modulo n 65536.

(** The statuses in the admitted range that allow no body. *)
Definition null_body_status (status : Z) : bool :=
  Z.eqb status 204 || Z.eqb status 205 || Z.eqb status 304.

(** A body argument other than [undefined] and [null]. *)
Definition has_body (body : JsValue) : bool :=
  match body with
  | JUndefined | JNull => false
  | _ => true
  end.

(** [response(status, body, headers)], that is
    [new Response(body, { status, ...headers })].  The constructor
    throws a [RangeError] when the status it reads is outside 200..599
    and a [TypeError] for a body together with a null body status; the
    wording of the two messages is the runtime's, and nothing below
    depends on it.  The members of [headers] become members of the init
    dictionary, not headers of the response; they are kept as they are
    (a header map is taken to have no member named [status],
    [statusText] or [headers]). *)
Definition Traffic_response (status : Z) (body : JsValue)
    (headers : option HeadersInit) : Outcome Response :=
  if Z.ltb (to_uint16 status) 200 || Z.ltb 599 (to_uint16 status) then
    Thrown (RangeError "The status provided is outside the range [200, 599].")
  else if has_body body && null_body_status (to_uint16 status) then
    Thrown (TypeError "Response with null body status cannot have body")
  else Returned {| resp_status := status; resp_body := body;
                   resp_headers := None; resp_spread := headers |}.

(** ** src/types.ts *)

Inductive Method : Type :=
| post | get | patch | put | options | head_method | delete_method.

(** [true | z.ZodType] *)
Inductive FieldSchema : Type :=
| SchemaTrue
| SchemaZod (schema : ZodType).

(** [string | z.ZodType] *)
Inductive HeaderSchema : Type :=
| HeaderLiteral (literal : string)
| HeaderZod (schema : ZodType).

(** [z.ZodType | z.ZodRawShape] *)
Inductive ContentDefinition : Type :=
| ContentZod (schema : ZodType)
| ContentShape (shape : list (string * ZodType)).

(** [string | readonly string[]] *)
Inductive MimeSpec : Type :=
| MimeOne (mime : string)
| MimeMany (mimes : list string).

(** [{ raw: true; content?: undefined } | { raw?: false; content }] *)
Inductive MessageBody : Type :=
| BodyRaw
| BodyContent (content : ContentDefinition).

(** A schema map is kept as [Object.entries] enumerates it. *)
Record RequestDefinition : Type := MkRequestDefinition {
  request_mime : MimeSpec;
  request_headers : option (list (string * HeaderSchema));
  request_optional : option bool;
  request_message : MessageBody;
  request_params : option (list (string * FieldSchema));
  request_query : option (list (string * FieldSchema))
}.

Record ResponseDefinition : Type := MkResponseDefinition {
  response_status : Z;
  response_mime : MimeSpec;
  response_headers : option (list (string * HeaderSchema));
  response_optional : option bool;
  response_message : MessageBody
}.

(** [ResponseDefinition | readonly [ResponseDefinition, ...ResponseDefinition[]]] *)
Inductive ResponseSpec : Type :=
| ResponseOne (r : ResponseDefinition)
| ResponseMany (r : ResponseDefinition) (rs : list ResponseDefinition).

Record RouteDefinition : Type := MkRouteDefinition {
  method : option Method;
  path : option string;
  description : option string;
  route_request : RequestDefinition;
  route_response : ResponseSpec;
  route_issues : list string
}.

Record Content : Type := MkContent { content_type : string; content_data : JsValue }.

Record RequestContext : Type := MkRequestContext {
  ctx_request : Request;
  ctx_url : URL;
  ctx_headers : gmap string JsValue;
  ctx_content : option Content;
  ctx_params : gmap string JsValue;
  ctx_query : gmap string JsValue;
  ctx_response : Z → string → JsValue → option HeadersInit → M Response;
  ctx_issue : Issue → option HeadersInit → M Response;
  ctx_traffic : Traffic
}.

Definition RouteHandler : Type := RequestContext → M Response.

Record RawRouteContext : Type := MkRawRouteContext {
  raw_request : Request;
  raw_params : gmap string string;
  raw_traffic : Traffic
}.

Definition Route : Type := RawRouteContext → M Response.

(** ** src/traffic.ts: [Traffic.route] *)

(** [isArray(x) ? x : [x]] *)
Definition responses_of (spec : ResponseSpec) : list ResponseDefinition :=
  match spec with
  | ResponseOne r => [r]
  | ResponseMany r rs => r :: rs
  end.

Definition mimes_of (spec : MimeSpec) : list string :=
  match spec with
  | MimeOne m => [m]
  | MimeMany ms => ms
  end.

(** [r.mime === type]: an array is never identical to a string. *)
Definition mime_is (spec : MimeSpec) (type : string) : bool :=
  match spec with
  | MimeOne m => String.eqb m type
  | MimeMany _ => false
  end.

(** [c instanceof ZodType ? c : z.object(c)] *)
Definition content_shape (c : ContentDefinition) : ZodType :=
  match c with
  | ContentZod schema => schema
  | ContentShape shape => z_object shape
  end.

(** [schema === true ? z.string() : schema] *)
Definition field_shape (schema : FieldSchema) : ZodType :=
  match schema with
  | SchemaTrue => z_string
  | SchemaZod s => s
  end.

(** [typeof schema === "string" ? z.literal(schema) : schema] *)
Definition header_shape (schema : HeaderSchema) : ZodType :=
  match schema with
  | HeaderLiteral literal => z_literal literal
  | HeaderZod s => s
  end.

Definition serialize_failed (cause : option Cause) : LogEntry :=
  MkLog "Failed to serialize issue response." cause.

(** [issueResponseFactory(issue, headers)], lines 127-150 *)
Definition issueResponseFactory (traffic : Traffic) (accept : string)
    (issue : Issue) (headers : option HeadersInit) : M Response :=
  result ← try_catch
    (result ← serialize traffic (issue_to_js issue) accept;
     match result with
     | None => _ ← console_error (serialize_failed None); mret result
     | Some _ => mret result
     end)
    (λ error,
       _ ← console_error (serialize_failed (Some (CauseError error)));
       mret None);
  mret {|
    resp_status := status issue;
    resp_body := default JUndefined result;
    resp_headers := headers;
    resp_spread := None
  |}.

(** [traffic.issues.new(code, ...args)] followed by
    [return issueResponseFactory(issue)] *)
Definition raise_issue (traffic : Traffic) (accept : string)
    (code : string) (args : list Arg) : M Response :=
  issue ← lift (Issues_new (issues traffic) code args);
  issueResponseFactory traffic accept issue None.

(** [responses.find(...)!] and then reading [def.raw] *)
Definition find_response (definition : RouteDefinition) (status : Z) (type : string)
  : option ResponseDefinition :=
  List.find (λ r, Z.eqb (response_status r) status && mime_is (response_mime r) type)
            (responses_of (route_response definition)).

(** [responseFactory(status, type, rawData, headers)], lines 91-125 *)
Definition responseFactory (traffic : Traffic) (accept : string)
    (definition : RouteDefinition)
    (status : Z) (type : string) (rawData : JsValue) (headers : option HeadersInit)
  : M Response :=
  match find_response definition status type with
  | None => throw (TypeError "Cannot read properties of undefined (reading 'raw')")
  | Some def =>
      match response_message def with
      | BodyRaw => lift (Traffic_response status rawData headers)
      | BodyContent content =>
          match safeParse (content_shape content) rawData with
          | ParseSuccess data => lift (Traffic_response status data headers)
          | ParseFailure error =>
              _ ← console_error
                    (MkLog "Response content is invalid." (Some (CauseZod error)));
              raise_issue traffic accept "/traffic/unknown" []
          end
      end
  end.


Definition and_then {A B} (stage : Stage A) (rest : A → Stage B) : Stage B :=
  r ← stage;
  match r with
  | inl early => mret (inl early)
  | inr a => rest a
  end.

Definition proceed {A} (a : A) : Stage A := mret (inr a).

(** [return m], written in the body of [route] before the handler call *)
Definition leave {A} (m : M Response) : Stage A :=
  early ← m; mret (inl early).

(** The body of the three [for (const [key, schema] of Object.entries(...))]
    loops (lines 153-167, 173-187, 193-209), which differ in where the
    value is read, how the schema is completed, and the issue code. *)
Fixpoint validate_fields {S : Type} (traffic : Traffic) (accept : string)
    (code : string) (shape : S → ZodType) (value_of : string → JsValue)
    (entries : list (string * S)) (validated : gmap string JsValue)
  : Stage (gmap string JsValue) :=
  match entries with
  | [] => proceed validated
  | (key, schema) :: rest =>
      match safeParse (shape schema) (value_of key) with
      | ParseSuccess data =>
          validate_fields traffic accept code shape value_of rest
                          (<[key := data]> validated)
      | ParseFailure error =>
          leave (raise_issue traffic accept code [ArgError error])
      end
  end.

(** lines 152-168: [const value = rawParams[key]] *)
Definition params_stage (traffic : Traffic) (accept : string)
    (definition : RouteDefinition) (rawParams : gmap string string)
  : Stage (gmap string JsValue) :=
  match request_params (route_request definition) with
  | None => proceed ∅
  | Some entries =>
      validate_fields traffic accept "/traffic/request/invalid-params" field_shape
        (λ key, or_undefined (rawParams !! key)) entries ∅
  end.

(** lines 170-188: [const value = searchParams.get(key)] *)
Definition query_stage (traffic : Traffic) (accept : string)
    (definition : RouteDefinition) (request : Request)
  : Stage (gmap string JsValue) :=
  match request_query (route_request definition) with
  | None => proceed ∅
  | Some entries =>
      let searchParams := searchParams (request_url request) in
      validate_fields traffic accept "/traffic/request/invalid-query" field_shape
        (λ key, or_null (searchParams_get searchParams key)) entries ∅
  end.

(** lines 190-210: again [const value = searchParams.get(key)] *)
Definition headers_stage (traffic : Traffic) (accept : string)
    (definition : RouteDefinition) (request : Request)
  : Stage (gmap string JsValue) :=
  match request_headers (route_request definition) with
  | None => proceed ∅
  | Some entries =>
      let searchParams := searchParams (request_url request) in
      validate_fields traffic accept "/traffic/request/invalid-headers" header_shape
        (λ key, or_null (searchParams_get searchParams key)) entries ∅
  end.

(** [supportedTypes.includes(subtype)] *)
Definition includes (supportedTypes : list string) (subtype : option string) : bool :=
  match subtype with
  | Some s => existsb (String.eqb s) supportedTypes
  | None => false
  end.

(** lines 212-232; the stage hands on [type] *)
Definition content_type_stage (traffic : Traffic)
    (definition : RouteDefinition) (request : Request) : Stage string :=
  let rawContentType := header_get request "Content-Type" in
  contentType ← Mime_of rawContentType;
  let type := default "application/octet-stream" (mime_type <$> contentType) in
  let subtype := js_pop (js_split_limit "+" 2 type) in
  let supportedTypes := mimes_of (request_mime (route_request definition)) in
  if negb (includes supportedTypes subtype) then
    leave (
      error ← lift (Issues_new (issues traffic)
                      "/traffic/request/unsupported-content-type"
                      [ArgValue (JArr (JStr <$> supportedTypes))]);
      mret {|
        resp_status := status error;
        resp_body := or_undefined (JSON_stringify (issue_to_js error));
        resp_headers := None;
        resp_spread := None
      |})
  else proceed type.

(** lines 234-263 *)
Definition content_stage (traffic : Traffic) (accept : string)
    (definition : RouteDefinition) (request : Request) (type : string)
  : Stage (option Content) :=
  match request_message (route_request definition) with
  | BodyRaw => proceed None
  | BodyContent content =>
      result1 ← parse traffic request;
      match result1 with
      | None =>
          leave (raise_issue traffic accept "/traffic/request/unsupported-content" [])
      | Some value =>
          match safeParse (content_shape content) value with
          | ParseSuccess data =>
              proceed (Some {| content_type := type; content_data := data |})
          | ParseFailure error =>
              leave (raise_issue traffic accept "/traffic/request/invalid-content"
                                  [ArgError error])
          end
      end
  end.

(** [request.headers.get("Accept") ?? this.defaultResponseType] *)
Definition accept_of (this : Traffic) (request : Request) : string :=
  default (defaultResponseType this) (header_get request "Accept").

(** Lines 84-276 of [route]: the stages in their order, then the
    [event] object.  [this] is the instance the route is compiled on;
    [traffic] is the one of the raw context. *)
Definition request_context (this : Traffic) (definition : RouteDefinition)
    (context : RawRouteContext) : Stage RequestContext :=
  let rawParams := raw_params context in
  let request := raw_request context in
  let traffic := raw_traffic context in
  let accept := accept_of this request in
  and_then (params_stage traffic accept definition rawParams) (λ params,
  and_then (query_stage traffic accept definition request) (λ query,
  and_then (headers_stage traffic accept definition request) (λ headers,
  and_then (content_type_stage traffic definition request) (λ type,
  and_then (content_stage traffic accept definition request type) (λ content,
    proceed {|
      ctx_request := request;
      ctx_url := request_url request;
      ctx_params := params;
      ctx_query := query;
      ctx_headers := headers;
      ctx_content := content;
      ctx_response := responseFactory traffic accept definition;
      ctx_issue := issueResponseFactory traffic accept;
      ctx_traffic := traffic
    |}))))).

(** [route(definition, handler)], lines 79-281: an early return of a
    stage is the route's response; otherwise
    [const response = await handler(event); return response]. *)
Definition route (this : Traffic) (definition : RouteDefinition)
    (handler : RouteHandler) : Route := λ context,
  r ← request_context this definition context;
  match r with
  | inl early => mret early
  | inr event => handler event
  end.

(** ** Vocabulary of the statements *)

(** The error of the first entry, in enumeration order, whose value is
    rejected by its schema. *)
Fixpoint first_failure {S : Type} (shape : S → ZodType) (value_of : string → JsValue)
    (entries : list (string * S)) : option ZodError :=
  match entries with
  | [] => None
  | (key, schema) :: rest =>
      match safeParse (shape schema) (value_of key) with
      | ParseFailure error => Some error
      | ParseSuccess _ => first_failure shape value_of rest
      end
  end.

(** The validated members gathered up to the first failure. *)
Fixpoint validated_fields {S : Type} (shape : S → ZodType) (value_of : string → JsValue)
    (entries : list (string * S)) (validated : gmap string JsValue)
  : gmap string JsValue :=
  match entries with
  | [] => validated
  | (key, schema) :: rest =>
      match safeParse (shape schema) (value_of key) with
      | ParseSuccess data =>
          validated_fields shape value_of rest (<[key := data]> validated)
      | ParseFailure _ => validated
      end
  end.

(** Where each of the three validation stages reads its values. *)
Definition param_value (context : RawRouteContext) (key : string) : JsValue :=
  or_undefined (raw_params context !! key).
Definition query_value (request : Request) (key : string) : JsValue :=
  or_null (searchParams_get (searchParams (request_url request)) key).

Definition entries_of {S : Type} (declared : option (list (string * S)))
  : list (string * S) := default [] declared.

(** The first violation of a request, in the stage order params, query,
    headers, with the code of its stage. *)
Definition first_violation (definition : RouteDefinition) (context : RawRouteContext)
  : option (string * ZodError) :=
  let declared := route_request definition in
  match first_failure field_shape (param_value context)
          (entries_of (request_params declared)) with
  | Some error => Some ("/traffic/request/invalid-params", error)
  | None =>
      match first_failure field_shape (query_value (raw_request context))
              (entries_of (request_query declared)) with
      | Some error => Some ("/traffic/request/invalid-query", error)
      | None =>
          match first_failure header_shape (query_value (raw_request context))
                  (entries_of (request_headers declared)) with
          | Some error => Some ("/traffic/request/invalid-headers", error)
          | None => None
          end
      end
  end.

(** Some declared field's value is rejected by its schema. *)
Definition violates {S : Type} (shape : S → ZodType) (value_of : string → JsValue)
    (declared : option (list (string * S))) : Prop :=
  ∃ key schema error,
    In (key, schema) (entries_of declared)
    ∧ safeParse (shape schema) (value_of key) = ParseFailure error.

(** The kind under which the codecs read a media type: the key they
    switch on, when the [Mime] constructor accepts the type. *)
Definition kind_of (type : string) : option string :=
  match new_Mime type with
  | Returned m => codec_key (Some m)
  | Thrown _ => None
  end.

(** The registry holds the built-in factory under a code. *)
Definition builtin (traffic : Traffic) (code : string) : Prop :=
  factories (issues traffic) !! code = trafficIssues !! code.

End Program.

(** ** A reference engine

    One concrete [Engine], used to evaluate the pipeline on closed
    requests.  It follows the documented behaviour of the collaborators
    on the fragment the examples need: media types are read as the
    [content-type] package reads them (the text before the first [;],
    trimmed, checked against [token "/" token] and lower-cased), [JSON]
    covers null, booleans, integers, strings without control characters,
    arrays and objects, and the three schema constructors check what zod
    checks. *)
Module Reference.

Definition is_space (c : ascii) : bool :=
  let n := nat_of_ascii c in
  Nat.eqb n 32 || Nat.eqb n 9 || Nat.eqb n 10 || Nat.eqb n 13.

Fixpoint trim_start (s : string) : string :=
  match s with
  | String c rest => if is_space c then trim_start rest else s
  | EmptyString => EmptyString
  end.

Fixpoint trim_end (s : string) : string :=
  match s with
  | EmptyString => EmptyString
  | String c rest =>
      match trim_end rest with
      | EmptyString => if is_space c then EmptyString else String c EmptyString
      | kept => String c kept
      end
  end.

Definition trim (s : string) : string := trim_end (trim_start s).

(** the characters of an RFC 7230 token *)
Definition is_tchar (c : ascii) : bool :=
  let n := nat_of_ascii c in
  (Nat.leb 48 n && Nat.leb n 57) || (Nat.leb 65 n && Nat.leb n 90)
  || (Nat.leb 97 n && Nat.leb n 122)
  || existsb (Nat.eqb n) [33; 35; 36; 37; 38; 39; 42; 43; 45; 46; 94; 95; 96; 124; 126]%nat.

Fixpoint is_token (s : string) : bool :=
  match s with
  | EmptyString => false
  | String c EmptyString => is_tchar c
  | String c rest => is_tchar c && is_token rest
  end.

Definition is_media_type (s : string) : bool :=
  match js_split "/" s with
  | [a; b] => is_token a && is_token b
  | _ => false
  end.

(** [key=value] segments after the media type *)
Definition parse_parameter (segment : string) : option (string * string) :=
  match js_split "=" (trim segment) with
  | [key; value] =>
      if is_token (trim key) && is_token (trim value)
      then Some (lower (trim key), trim value) else None
  | _ => None
  end.

Definition content_type_parse (header : string) : Outcome ParsedMediaType :=
  if String.eqb header "" then Thrown (TypeError "argument string is required")
  else
    match js_split ";" header with
    | [] => Thrown (TypeError "invalid media type")
    | type :: segments =>
        if is_media_type (trim type) then
          match mapM parse_parameter segments with
          | Some parameters => Returned (MkParsed (lower (trim type)) parameters)
          | None => Thrown (TypeError "invalid parameter format")
          end
        else Thrown (TypeError "invalid media type")
    end.

Definition quote : string := String "034"%char EmptyString.

Fixpoint escape (s : string) : string :=
  match s with
  | EmptyString => EmptyString
  | String c rest =>
      if Ascii.eqb c "034"%char || Ascii.eqb c "092"%char
      then String "092"%char (String c (escape rest))
      else String c (escape rest)
  end.

Definition join (sep : string) (pieces : list string) : string :=
  match pieces with
  | [] => EmptyString
  | first :: others => fold_left (λ acc piece, acc +:+ sep +:+ piece) others first
  end.

(** [JSON.stringify]: [undefined] has no text, becomes [null] inside an
    array and is left out of an object. *)
Fixpoint stringify (v : JsValue) : option string :=
  match v with
  | JUndefined => None
  | JNull => Some "null"
  | JBool true => Some "true"
  | JBool false => Some "false"
  | JNum n => Some (pretty n)
  | JStr s => Some (quote +:+ escape s +:+ quote)
  | JArr items =>
      Some ("[" +:+ join "," ((λ item, default "null" (stringify item)) <$> items) +:+ "]")
  | JObj props =>
      Some ("{" +:+ join ","
              (omap (λ '(key, value),
                       (λ text, quote +:+ escape key +:+ quote +:+ ":" +:+ text)
                         <$> stringify value) props)
            +:+ "}")
  end.

Definition SyntaxError (msg : string) : JsError := MkError "SyntaxError" msg.

(** the characters of a string literal, after its opening quote *)
Fixpoint parse_chars (s : string) : option (string * string) :=
  match s with
  | EmptyString => None
  | String c rest =>
      if Ascii.eqb c "034"%char then Some (EmptyString, rest)
      else if Ascii.eqb c "092"%char then
        match rest with
        | String d rest' =>
            '(text, tail) ← parse_chars rest'; Some (String d text, tail)
        | EmptyString => None
        end
      else '(text, tail) ← parse_chars rest; Some (String c text, tail)
  end.

Definition digit_of (c : ascii) : option Z :=
  let n := nat_of_ascii c in
  if Nat.leb 48 n && Nat.leb n 57 then Some (Z.of_nat n - 48) else None.

Fixpoint parse_digits (acc : Z) (s : string) : Z * string :=
  match s with
  | String c rest =>
      match digit_of c with
      | Some d => parse_digits (10 * acc + d) rest
      | None => (acc, s)
      end
  | EmptyString => (acc, s)
  end.

Definition parse_number (s : string) : option (Z * string) :=
  match s with
  | String "-"%char (String c _ as digits) =>
      _ ← digit_of c; let '(n, tail) := parse_digits 0 digits in Some (- n, tail)
  | String c _ => _ ← digit_of c; Some (parse_digits 0 s)
  | EmptyString => None
  end.

Fixpoint strip_prefix (prefix s : string) : option string :=
  match prefix, s with
  | EmptyString, _ => Some s
  | String p prefix', String c rest =>
      if Ascii.eqb p c then strip_prefix prefix' rest else None
  | String _ _, EmptyString => None
  end.

Definition parse_atom (s : string) : option (JsValue * string) :=
  match strip_prefix "null" s, strip_prefix "true" s, strip_prefix "false" s with
  | Some tail, _, _ => Some (JNull, tail)
  | _, Some tail, _ => Some (JBool true, tail)
  | _, _, Some tail => Some (JBool false, tail)
  | _, _, _ => '(n, tail) ← parse_number s; Some (JNum n, tail)
  end.

Fixpoint parse_value (fuel : nat) (s : string) : option (JsValue * string) :=
  match fuel with
  | O => None
  | S fuel =>
      match trim_start s with
      | String "034"%char rest =>
          '(text, tail) ← parse_chars rest; Some (JStr text, tail)
      | String "["%char rest =>
          match trim_start rest with
          | String "]"%char tail => Some (JArr [], tail)
          | _ => '(items, tail) ← parse_items fuel rest; Some (JArr items, tail)
          end
      | String "{"%char rest =>
          match trim_start rest with
          | String "}"%char tail => Some (JObj [], tail)
          | _ => '(props, tail) ← parse_members fuel rest; Some (JObj props, tail)
          end
      | other => parse_atom other
      end
  end
with parse_items (fuel : nat) (s : string) : option (list JsValue * string) :=
  match fuel with
  | O => None
  | S fuel =>
      '(item, tail) ← parse_value fuel s;
      match trim_start tail with
      | String ","%char tail' =>
          '(items, tail'') ← parse_items fuel tail'; Some (item :: items, tail'')
      | String "]"%char tail' => Some ([item], tail')
      | _ => None
      end
  end
with parse_members (fuel : nat) (s : string)
  : option (list (string * JsValue) * string) :=
  match fuel with
  | O => None
  | S fuel =>
      match trim_start s with
      | String "034"%char rest =>
          '(key, tail) ← parse_chars rest;
          match trim_start tail with
          | String ":"%char tail' =>
              '(value, tail'') ← parse_value fuel tail';
              match trim_start tail'' with
              | String ","%char more =>
                  '(props, final) ← parse_members fuel more;
                  Some ((key, value) :: props, final)
              | String "}"%char final => Some ([(key, value)], final)
              | _ => None
              end
          | _ => None
          end
      | _ => None
      end
  end.

(** [JSON.parse] *)
Definition json_parse (text : string) : Outcome JsValue :=
  match parse_value (S (String.length text)) text with
  | Some (v, tail) =>
      if String.eqb (trim_start tail) "" then Returned v
      else Thrown (SyntaxError "Unexpected non-whitespace character after JSON")
  | None => Thrown (SyntaxError "Unexpected token in JSON")
  end.

(** [String(v)] for the values that are not strings *)
Fixpoint to_string (v : JsValue) : string :=
  match v with
  | JUndefined => "undefined"
  | JNull => "null"
  | JBool true => "true"
  | JBool false => "false"
  | JNum n => pretty n
  | JStr s => s
  | JArr items =>
      join "," ((λ item, match item with
                         | JUndefined | JNull => EmptyString
                         | other => to_string other
                         end) <$> items)
  | JObj _ => "[object Object]"
  end.

Definition type_name (v : JsValue) : string :=
  match v with
  | JUndefined => "undefined"
  | JNull => "null"
  | JBool _ => "boolean"
  | JNum _ => "number"
  | JStr _ => "string"
  | JArr _ => "array"
  | JObj _ => "object"
  end.

Definition invalid_type (expected : string) (v : JsValue) : ZodError :=
  MkZodError
    (MkZodIssue "invalid_type" []
       (match v with
        | JUndefined => "Required"
        | _ => "Expected " +:+ expected +:+ ", received " +:+ type_name v
        end))
    [].

(** [z.string()] *)
Definition zod_string : ZodType := λ v,
  match v with
  | JStr s => ParseSuccess (JStr s)
  | other => ParseFailure (invalid_type "string" other)
  end.

(** [z.literal(expected)] *)
Definition zod_literal (expected : string) : ZodType := λ v,
  let mismatch :=
    ParseFailure
      (MkZodError (MkZodIssue "invalid_literal" []
                     ("Invalid literal value, expected " +:+ quote +:+ expected +:+ quote))
                  []) in
  match v with
  | JStr s => if String.eqb s expected then ParseSuccess v else mismatch
  | _ => mismatch
  end.

Fixpoint object_get (props : list (string * JsValue)) (key : string) : JsValue :=
  match props with
  | [] => JUndefined
  | (name, value) :: rest =>
      if String.eqb name key then value else object_get rest key
  end.

Definition under (key : string) (i : ZodIssue) : ZodIssue :=
  MkZodIssue (zi_code i) (key :: zi_path i) (zi_message i).

(** [z.object(shape)]: every member of the shape is checked, unknown
    members are stripped, and all issues are reported. *)
Fixpoint check_members (shape : list (string * ZodType)) (props : list (string * JsValue))
  : list (string * JsValue) * list ZodIssue :=
  match shape with
  | [] => ([], [])
  | (key, schema) :: rest =>
      let '(kept, problems) := check_members rest props in
      match safeParse schema (object_get props key) with
      | ParseSuccess data => ((key, data) :: kept, problems)
      | ParseFailure error => (kept, (under key <$> zod_issues error) ++ problems)
      end
  end.

Definition zod_object (shape : list (string * ZodType)) : ZodType := λ v,
  match v with
  | JObj props =>
      match check_members shape props with
      | (kept, []) => ParseSuccess (JObj kept)
      | (_, first :: others) => ParseFailure (MkZodError first others)
      end
  | other => ParseFailure (invalid_type "object" other)
  end.

Definition engine : Engine := {|
  ct_parse := content_type_parse;
  JSON_stringify := stringify;
  JSON_parse := json_parse;
  ToString := to_string;
  z_string := zod_string;
  z_literal := zod_literal;
  z_object := zod_object;
  decode_form_data := λ _ _, Thrown (TypeError "Failed to parse body as FormData.")
|}.

(** [new Headers(init).get]: names are compared in lower case. *)
Definition headers_of (init : list (string * string)) : string → option string :=
  λ name, snd <$> List.find (λ entry, String.eqb (lower (fst entry)) (lower name)) init.

End Reference.

(** ** Closed routes and requests for the examples *)
Module Examples.
Import Reference.

(** [new Traffic()] on the reference engine *)
Definition traffic : Traffic := @new_Traffic engine None.

(** A factory that leaves [deflected] out, registered next to the
    built-in ones. *)
Definition teapot_issue : IssueFactory := λ _,
  Returned (MkFields 418 None None [("description", JStr "I am a teapot.")]).

(** A schema that accepts the decimal numerals. *)
Definition zod_numeric : ZodType := λ v,
  match v with
  | JStr s =>
      match parse_number s with
      | Some (n, EmptyString) => ParseSuccess (JNum n)
      | _ => ParseFailure
               (MkZodError (MkZodIssue "invalid_type" []
                              "Expected number, received string") [])
      end
  | other => ParseFailure (invalid_type "number" other)
  end.

Definition named : ResponseDefinition := {|
  response_status := 200;
  response_mime := MimeOne "json";
  response_headers := None;
  response_optional := None;
  response_message := BodyContent (ContentShape [("name", zod_string)])
|}.

Definition no_content : ResponseDefinition := {|
  response_status := 204;
  response_mime := MimeOne "json";
  response_headers := None;
  response_optional := None;
  response_message := BodyRaw
|}.

(** A route with a numeric path parameter, a query field, a literal
    header and [json] as its only request subtype. *)
Definition users_route : RouteDefinition := {|
  method := Some get;
  path := Some "/users/:id";
  description := None;
  route_request := {|
    request_mime := MimeOne "json";
    request_headers := Some [("x-api-version", HeaderLiteral "2")];
    request_optional := None;
    request_message := BodyRaw;
    request_params := Some [("id", SchemaZod zod_numeric)];
    request_query := Some [("page", SchemaTrue)]
  |};
  route_response := ResponseMany named [no_content];
  route_issues := []
|}.

(** A route that declares nothing but [json] as its request subtype. *)
Definition json_route : RouteDefinition := {|
  method := Some post;
  path := Some "/notes";
  description := None;
  route_request := {|
    request_mime := MimeOne "json";
    request_headers := None;
    request_optional := None;
    request_message := BodyRaw;
    request_params := None;
    request_query := None
  |};
  route_response := ResponseOne named;
  route_issues := []
|}.

Definition request_of (search headers : list (string * string)) (body : string)
  : Request :=
  MkRequest (MkURL "http://localhost/" search) (headers_of headers) body.

Definition context_of (params : list (string * string)) (request : Request)
  : RawRouteContext :=
  MkRawRouteContext request (list_to_map params) traffic.

(** A handler that answers with a well-formed payload. *)
Definition greet : RouteHandler := λ ctx,
  ctx_response ctx 200 "json" (JObj [("name", JStr "a")]) None.

(** A handler whose payload is not what [named] declares. *)
Definition greet_badly : RouteHandler := λ ctx,
  ctx_response ctx 200 "json" (JNum 5) None.

(** A handler that answers with a pair the route does not declare. *)
Definition not_found : RouteHandler := λ ctx,
  ctx_response ctx 404 "json" JNull None.

(** [/users/abc] *)
Definition bad_id : RawRouteContext :=
  context_of [("id", "abc")]
    (request_of [("page", "1"); ("x-api-version", "2")]
                [("Content-Type", "application/vnd.api+json")] "").

(** [/users/7?page=1&x-api-version=2], every stage passes *)
Definition good : RawRouteContext :=
  context_of [("id", "7")]
    (request_of [("page", "1"); ("x-api-version", "2")]
                [("Content-Type", "application/vnd.api+json")] "").

(** The version is sent as an HTTP header only. *)
Definition version_in_header : RawRouteContext :=
  context_of [("id", "7")]
    (request_of [("page", "1")]
                [("Content-Type", "application/vnd.api+json");
                 ("X-Api-Version", "2")] "").

(** [Content-Type: text/plain] *)
Definition text_plain : RawRouteContext :=
  context_of [] (request_of [] [("Content-Type", "text/plain")] "hello").

(** A media type with a suffix other than [json] *)
Definition suffixed_xml : RawRouteContext :=
  context_of [] (request_of [] [("Content-Type", "application/atom+xml")] "").

(** No [Content-Type] header *)
Definition untyped : RawRouteContext :=
  context_of [] (request_of [] [] "").

(** [/users/abc] again, asking for [application/problem+json] *)
Definition bad_id_problem_json : RawRouteContext :=
  context_of [("id", "abc")]
    (request_of [("page", "1"); ("x-api-version", "2")]
                [("Content-Type", "application/vnd.api+json");
                 ("Accept", "application/problem+json")] "").

(** A request whose body is the JSON text of an array *)
Definition json_body : Request :=
  request_of [] [("Content-Type", "application/ld+json")] "[1,true,null]".

(** A route with a body schema; [xml] is declared although no codec
    reads it, and requests without a Content-Type are let through. *)
Definition notes_route : RouteDefinition := {|
  method := Some post;
  path := Some "/notes";
  description := None;
  route_request := {|
    request_mime := MimeMany ["json"; "xml"; "application/octet-stream"];
    request_headers := None;
    request_optional := None;
    request_message := BodyContent (ContentShape [("name", zod_string)]);
    request_params := None;
    request_query := None
  |};
  route_response := ResponseOne named;
  route_issues := []
|}.

(** A route whose only response definition gives its mime as an array. *)
Definition array_route : RouteDefinition := {|
  method := Some get;
  path := Some "/ping";
  description := None;
  route_request := route_request json_route;
  route_response :=
    ResponseOne {|
      response_status := 200;
      response_mime := MimeMany ["json"];
      response_headers := None;
      response_optional := None;
      response_message := BodyRaw
    |};
  route_issues := []
|}.





(** A route that declares a status of the informational class. *)
Definition continue_route : RouteDefinition := {|
  method := Some get;
  path := Some "/ping";
  description := None;
  route_request := route_request json_route;
  route_response :=
    ResponseOne {|
      response_status := 100;
      response_mime := MimeOne "json";
      response_headers := None;
      response_optional := None;
      response_message := BodyRaw
    |};
  route_issues := []
|}.

(** The JSON text of [{ name: "a" }] *)
Definition note_text : string :=
  default "" (stringify (JObj [("name", JStr "a")])).

Definition good_note : RawRouteContext :=
  context_of [] (request_of [] [("Content-Type", "application/ld+json")] note_text).

(** A body that is not JSON *)
Definition broken_note : RawRouteContext :=
  context_of [] (request_of [] [("Content-Type", "application/ld+json")] "{").

Definition xml_note : RawRouteContext :=
  context_of [] (request_of [] [("Content-Type", "application/atom+xml")] "<note/>").

(** [Content-Type: application/json], on a route that does support [json] *)
Definition bare_json : RawRouteContext :=
  context_of [] (request_of [] [("Content-Type", "application/json")] "{}").

(** An instance whose options replace the built-in [invalid-params]
    factory by one with status 422. *)
Definition unprocessable : IssueFactory := λ _,
  Returned (MkFields 422 None None [("description", JStr "Unprocessable.")]).

Definition strict_traffic : Traffic :=
  @new_Traffic engine (Some {[ "/traffic/request/invalid-params" := unprocessable ]}).

Definition bad_id_strict : RawRouteContext :=
  MkRawRouteContext (raw_request bad_id) (raw_params bad_id) strict_traffic.

End Examples.

(** * Properties *)

(** ** The issue registry *)

Section Registry.

Lemma Issues_new_registered (self : Issues) (C : string) (factory : IssueFactory)
    (args : list Arg) :
  factories self !! C = Some factory →
  Issues_new self C args =
    match factory args with
    | Thrown e => Thrown e
    | Returned fields =>
        Returned (MkIssue C (fields_status fields)
                    (Some (default false (fields_deflected fields)))
                    (fields_headers fields) (fields_extra fields))
    end.
Proof.
  intros Hreg. unfold Issues_new. rewrite Hreg. by destruct (factory args).
Qed.

(** C3. For a registered code [C] and arguments on which its factory
    returns, [Issues.new] returns an issue whose [code] is [C] and whose
    [deflected] is present and boolean: the factory's value when it gave
    one, [false] when it left the member out. *)
Theorem Issues_new_code_and_deflected (self : Issues) (C : string)
    (factory : IssueFactory) (args : list Arg) (fields : IssueFields) :
  factories self !! C = Some factory →
  factory args = Returned fields →
  ∃ issue : Issue,
    Issues_new self C args = Returned issue
    ∧ code issue = C
    ∧ status issue = fields_status fields
    ∧ deflected issue = Some match fields_deflected fields with
                             | Some b => b
                             | None => false
                             end.
Proof.
  intros Hreg Hcall.
  rewrite (Issues_new_registered _ _ _ _ Hreg), Hcall.
  eexists; split; [reflexivity|]. simpl.
  by destruct (fields_deflected fields).
Qed.

End Registry.

Lemma Issues_new_code_and_deflected_witness :
  ∃ issue : Issue,
    Issues_new (Issues_override (MkIssues trafficIssues) "/app/teapot" Examples.teapot_issue)
               "/app/teapot" [] = Returned issue
    ∧ code issue = "/app/teapot"
    ∧ status issue = 418
    ∧ deflected issue = Some false.
Proof.
  apply (Issues_new_code_and_deflected
           (Issues_override (MkIssues trafficIssues) "/app/teapot" Examples.teapot_issue)
           "/app/teapot" Examples.teapot_issue []
           (MkFields 418 None None [("description", JStr "I am a teapot.")])).
  - vm_compute. reflexivity.
  - reflexivity.
Defined.

(** C4. The built-in factories follow the taxonomy: the four validation
    issues and [unsupported-content-type] are status 400 with
    [deflected = true], [unsupported-content] is status 400 with
    [deflected = false], and [unknown] is status 500 with
    [deflected = false]. *)
Theorem trafficIssues_taxonomy :
  let registry := MkIssues trafficIssues in
  (∀ error rest,
     Issues_new registry "/traffic/request/invalid-params" (ArgError error :: rest)
     = Returned (MkIssue "/traffic/request/invalid-params" 400 (Some true) None
                   (validation_fields error)))
  ∧ (∀ error rest,
       Issues_new registry "/traffic/request/invalid-query" (ArgError error :: rest)
       = Returned (MkIssue "/traffic/request/invalid-query" 400 (Some true) None
                     (validation_fields error)))
  ∧ (∀ error rest,
       Issues_new registry "/traffic/request/invalid-headers" (ArgError error :: rest)
       = Returned (MkIssue "/traffic/request/invalid-headers" 400 (Some true) None
                     (validation_fields error)))
  ∧ (∀ error rest,
       Issues_new registry "/traffic/request/invalid-content" (ArgError error :: rest)
       = Returned (MkIssue "/traffic/request/invalid-content" 400 (Some true) None
                     (validation_fields error)))
  ∧ (∀ args, ∃ more,
       Issues_new registry "/traffic/request/unsupported-content-type" args
       = Returned (MkIssue "/traffic/request/unsupported-content-type" 400
                     (Some true) None more))
  ∧ (∀ args, ∃ more,
       Issues_new registry "/traffic/request/unsupported-content" args
       = Returned (MkIssue "/traffic/request/unsupported-content" 400
                     (Some false) None more))
  ∧ (∀ args, ∃ more,
       Issues_new registry "/traffic/unknown" args
       = Returned (MkIssue "/traffic/unknown" 500 (Some false) None more)).
Proof.
  repeat split; intros; try (eexists; reflexivity); reflexivity.
Qed.


(** ** The pipeline *)

Section Pipeline.
Context {engine : Engine}.

(** *** The monad *)

Lemma bind_ret {A B} (a : A) (k : A → M B) : (mret a ≫= k) = k a.
Proof. unfold mret, M_ret, ret, mbind, M_bind, bind. by destruct (k a). Qed.

Lemma bind_run {A B} (l : list LogEntry) (a : A) (k : A → M B) :
  ((l, Returned a) ≫= k) = (l ++ (k a).1, (k a).2).
Proof. unfold mbind, M_bind, bind. by destruct (k a). Qed.

Lemma bind_thrown {A B} (l : list LogEntry) (e : JsError) (k : A → M B) :
  ((l, Thrown e) ≫= k) = (l, Thrown e).
Proof. reflexivity. Qed.

Lemma bind_lift {A B} (a : A) (k : A → M B) : (lift (Returned a) ≫= k) = k a.
Proof. apply bind_ret. Qed.

Lemma bind_ret_r {A} (m : M A) : (m ≫= mret) = m.
Proof.
  destruct m as [l [a|e]]; [|reflexivity].
  rewrite bind_run. simpl. by rewrite app_nil_r.
Qed.

Lemma and_then_proceed {A B} (a : A) (rest : A → Stage B) :
  and_then (proceed a) rest = rest a.
Proof. unfold and_then, proceed. by rewrite bind_ret. Qed.

Lemma and_then_leave {A B} (m : M Response) (rest : A → Stage B) :
  and_then (leave m) rest = leave m.
Proof.
  unfold and_then, leave. destruct m as [l [r|e]]; [|reflexivity].
  rewrite !bind_run. simpl. by rewrite app_nil_r.
Qed.

(** A route whose stages return early answers with that response,
    whatever the handler is. *)
Lemma route_leaves (this : Traffic) (definition : RouteDefinition)
    (handler : RouteHandler) (context : RawRouteContext) (m : M Response) :
  request_context this definition context = leave m →
  route this definition handler context = m.
Proof.
  intros Hctx. unfold route. rewrite Hctx. unfold leave.
  destruct m as [l [r|e]]; [|reflexivity].
  rewrite !bind_run. simpl. by rewrite !app_nil_r.
Qed.

(** A route whose stages all pass runs the handler on the event. *)
Lemma route_proceeds (this : Traffic) (definition : RouteDefinition)
    (handler : RouteHandler) (context : RawRouteContext)
    (log : list LogEntry) (event : RequestContext) :
  request_context this definition context = (log, Returned (inr event)) →
  route this definition handler context = (log ++ (handler event).1, (handler event).2).
Proof. intros Hctx. unfold route. rewrite Hctx. by rewrite bind_run. Qed.

(** *** Issue responses *)

(** An instance constructed without options holds the built-in table. *)
Lemma new_Traffic_issues : issues (new_Traffic None) = MkIssues trafficIssues.
Proof. unfold new_Traffic. simpl. by rewrite (left_id_L ∅ (∪)). Qed.

Lemma new_Traffic_builtin (code : string) : builtin (new_Traffic None) code.
Proof. unfold builtin. by rewrite new_Traffic_issues. Qed.

(** The status of an issue always reaches the client. *)
Lemma issueResponseFactory_returns (traffic : Traffic) (accept : string)
    (issue : Issue) (hs : option HeadersInit) :
  ∃ log body,
    issueResponseFactory traffic accept issue hs
    = (log, Returned (MkResponse (status issue) body hs None)).
Proof.
  unfold issueResponseFactory.
  destruct (serialize traffic (issue_to_js issue) accept) as [l [[v|]|e]];
    simpl; eauto.
Qed.

Lemma raise_issue_builtin (traffic : Traffic) (accept code : string)
    (args : list Arg) (factory : IssueFactory) (fields : IssueFields) :
  builtin traffic code →
  trafficIssues !! code = Some factory →
  factory args = Returned fields →
  raise_issue traffic accept code args
  = issueResponseFactory traffic accept
      (MkIssue code (fields_status fields)
         (Some (default false (fields_deflected fields)))
         (fields_headers fields) (fields_extra fields)) None.
Proof.
  intros Hb Hf Hcall. unfold raise_issue, builtin in *.
  rewrite (Issues_new_registered _ _ factory), Hcall by congruence.
  unfold lift. rewrite bind_run. simpl.
  by destruct (issueResponseFactory _ _ _ _).
Qed.

Lemma raise_validation_issue (traffic : Traffic) (accept code : string)
    (error : ZodError) :
  builtin traffic code →
  trafficIssues !! code = Some validation_issue →
  raise_issue traffic accept code [ArgError error]
  = issueResponseFactory traffic accept
      (MkIssue code 400 (Some true) None (validation_fields error)) None.
Proof.
  intros Hb Hf.
  by rewrite (raise_issue_builtin _ _ _ _ validation_issue
                (MkFields 400 (Some true) None (validation_fields error))).
Qed.

(** *** The validation loops *)

Lemma validate_fields_spec {S : Type} (traffic : Traffic) (accept code : string)
    (shape : S → ZodType) (value_of : string → JsValue)
    (entries : list (string * S)) (validated : gmap string JsValue) :
  validate_fields traffic accept code shape value_of entries validated
  = match first_failure shape value_of entries with
    | Some error => leave (raise_issue traffic accept code [ArgError error])
    | None => proceed (validated_fields shape value_of entries validated)
    end.
Proof.
  revert validated.
  induction entries as [|[key schema] rest IH]; intros validated; simpl.
  - reflexivity.
  - destruct (safeParse (shape schema) (value_of key)) as [data|error].
    + apply IH.
    + reflexivity.
Qed.

Lemma violates_first_failure {S : Type} (shape : S → ZodType)
    (value_of : string → JsValue) (declared : option (list (string * S))) :
  violates shape value_of declared
  ↔ ∃ error, first_failure shape value_of (entries_of declared) = Some error.
Proof.
  unfold violates. generalize (entries_of declared) as entries.
  induction entries as [|[key schema] rest IH]; simpl.
  - split; [intros (?&?&?&[]&_) | intros [? [=]]].
  - destruct (safeParse (shape schema) (value_of key)) as [data|error] eqn:Hparse.
    + rewrite <- IH. split.
      * intros (k&s&e&[[= <- <-]|Hin]&Hfail); [congruence|eauto 6].
      * intros (k&s&e&Hin&Hfail). eauto 7.
    + split; [eauto|]. intros _. exists key, schema, error. auto.
Qed.

Lemma params_stage_spec (traffic : Traffic) (accept : string)
    (definition : RouteDefinition) (context : RawRouteContext) :
  params_stage traffic accept definition (raw_params context)
  = match first_failure field_shape (param_value context)
            (entries_of (request_params (route_request definition))) with
    | Some error =>
        leave (raise_issue traffic accept "/traffic/request/invalid-params"
                 [ArgError error])
    | None =>
        proceed (validated_fields field_shape (param_value context)
                   (entries_of (request_params (route_request definition))) ∅)
    end.
Proof.
  unfold params_stage.
  destruct (request_params (route_request definition)) as [entries|]; simpl.
  - apply validate_fields_spec.
  - reflexivity.
Qed.

Lemma query_stage_spec (traffic : Traffic) (accept : string)
    (definition : RouteDefinition) (request : Request) :
  query_stage traffic accept definition request
  = match first_failure field_shape (query_value request)
            (entries_of (request_query (route_request definition))) with
    | Some error =>
        leave (raise_issue traffic accept "/traffic/request/invalid-query"
                 [ArgError error])
    | None =>
        proceed (validated_fields field_shape (query_value request)
                   (entries_of (request_query (route_request definition))) ∅)
    end.
Proof.
  unfold query_stage.
  destruct (request_query (route_request definition)) as [entries|]; simpl.
  - apply validate_fields_spec.
  - reflexivity.
Qed.

Lemma headers_stage_spec (traffic : Traffic) (accept : string)
    (definition : RouteDefinition) (request : Request) :
  headers_stage traffic accept definition request
  = match first_failure header_shape (query_value request)
            (entries_of (request_headers (route_request definition))) with
    | Some error =>
        leave (raise_issue traffic accept "/traffic/request/invalid-headers"
                 [ArgError error])
    | None =>
        proceed (validated_fields header_shape (query_value request)
                   (entries_of (request_headers (route_request definition))) ∅)
    end.
Proof.
  unfold headers_stage.
  destruct (request_headers (route_request definition)) as [entries|]; simpl.
  - apply validate_fields_spec.
  - reflexivity.
Qed.

(** The route stops at the first violation. *)
Lemma request_context_violation (this : Traffic) (definition : RouteDefinition)
    (context : RawRouteContext) (code : string) (error : ZodError) :
  first_violation definition context = Some (code, error) →
  request_context this definition context
  = leave (raise_issue (raw_traffic context)
             (accept_of this (raw_request context)) code [ArgError error]).
Proof.
  unfold first_violation, request_context.
  rewrite params_stage_spec, query_stage_spec, headers_stage_spec.
  destruct (first_failure field_shape (param_value context) _) as [e1|].
  { intros [= <- <-]. apply and_then_leave. }
  rewrite and_then_proceed.
  destruct (first_failure field_shape (query_value _) _) as [e2|].
  { intros [= <- <-]. apply and_then_leave. }
  rewrite and_then_proceed.
  destruct (first_failure header_shape (query_value _) _) as [e3|].
  { intros [= <- <-]. apply and_then_leave. }
  intros [=].
Qed.

Lemma violation_found (definition : RouteDefinition) (context : RawRouteContext) :
  violates field_shape (param_value context)
    (request_params (route_request definition))
  ∨ violates field_shape (query_value (raw_request context))
      (request_query (route_request definition))
  ∨ violates header_shape (query_value (raw_request context))
      (request_headers (route_request definition)) →
  ∃ code error,
    first_violation definition context = Some (code, error)
    ∧ In code ["/traffic/request/invalid-params"; "/traffic/request/invalid-query";
               "/traffic/request/invalid-headers"].
Proof.
  rewrite !violates_first_failure. unfold first_violation.
  destruct (first_failure field_shape (param_value context) _) as [e1|].
  { intros _. eexists _, _. split; [reflexivity|]. simpl. auto. }
  destruct (first_failure field_shape (query_value _) _) as [e2|].
  { intros _. eexists _, _. split; [reflexivity|]. simpl. auto. }
  destruct (first_failure header_shape (query_value _) _) as [e3|].
  { intros _. eexists _, _. split; [reflexivity|]. simpl. auto. }
  intros [[? [=]]|[[? [=]]|[? [=]]]].
Qed.

(** C1. When some declared params, query or headers field is rejected
    by its schema, the route answers with the issue of the first stage
    that fails, in the order params, query, headers: the response is the
    issue response of that code, its status is 400, and it is the same
    for every handler, so neither a later stage nor the handler runs.
    The value of a declared header is the one the headers stage reads
    (see C7). *)
Theorem schema_violation_short_circuits (this : Traffic)
    (definition : RouteDefinition) (handler : RouteHandler)
    (context : RawRouteContext) :
  builtin (raw_traffic context) "/traffic/request/invalid-params" →
  builtin (raw_traffic context) "/traffic/request/invalid-query" →
  builtin (raw_traffic context) "/traffic/request/invalid-headers" →
  violates field_shape (param_value context)
    (request_params (route_request definition))
  ∨ violates field_shape (query_value (raw_request context))
      (request_query (route_request definition))
  ∨ violates header_shape (query_value (raw_request context))
      (request_headers (route_request definition)) →
  ∃ code error log body,
    first_violation definition context = Some (code, error)
    ∧ route this definition handler context
      = issueResponseFactory (raw_traffic context)
          (accept_of this (raw_request context))
          (MkIssue code 400 (Some true) None (validation_fields error)) None
    ∧ route this definition handler context
      = (log, Returned (MkResponse 400 body None None))
    ∧ ∀ other : RouteHandler,
        route this definition other context
        = route this definition handler context.
Proof.
  intros Hparams Hquery Hheaders Hviolates.
  destruct (violation_found _ _ Hviolates) as (code & error & Hfirst & Hcode).
  assert (Hraise : raise_issue (raw_traffic context)
                     (accept_of this (raw_request context)) code [ArgError error]
                   = issueResponseFactory (raw_traffic context)
                       (accept_of this (raw_request context))
                       (MkIssue code 400 (Some true) None (validation_fields error))
                       None).
  { simpl in Hcode. destruct Hcode as [<-|[<-|[<-|[]]]];
      by apply raise_validation_issue. }
  destruct (issueResponseFactory_returns (raw_traffic context)
              (accept_of this (raw_request context))
              (MkIssue code 400 (Some true) None (validation_fields error)) None)
    as (log & body & Hresponse).
  exists code, error, log, body.
  pose proof (request_context_violation this _ _ _ _ Hfirst) as Hleave.
  rewrite (route_leaves _ _ handler _ _ Hleave), Hraise.
  repeat split; [done..|].
  intros other. by rewrite (route_leaves _ _ other _ _ Hleave), Hraise.
Qed.

(** *** The operations bound into the event *)

Lemma and_then_passed {A B} (stage : Stage A) (rest : A → Stage B)
    (log : list LogEntry) (b : B) :
  and_then stage rest = (log, Returned (inr b)) →
  ∃ l1 a l2,
    stage = (l1, Returned (inr a)) ∧ rest a = (l2, Returned (inr b))
    ∧ log = l1 ++ l2.
Proof.
  unfold and_then. destruct stage as [l1 [[early|a]|e]].
  - rewrite bind_run. simpl. intros [= _ ?]. 
  - rewrite bind_run. destruct (rest a) as [l2 o] eqn:Hrest. simpl.
    intros [= <- ->]. eauto 6.
  - intros [=].
Qed.

Lemma request_context_binds (this : Traffic) (definition : RouteDefinition)
    (context : RawRouteContext) (log : list LogEntry) (event : RequestContext) :
  request_context this definition context = (log, Returned (inr event)) →
  ctx_response event
  = responseFactory (raw_traffic context) (accept_of this (raw_request context))
      definition
  ∧ ctx_issue event
    = issueResponseFactory (raw_traffic context)
        (accept_of this (raw_request context))
  ∧ ctx_traffic event = raw_traffic context
  ∧ ctx_request event = raw_request context.
Proof.
  unfold request_context. intros H.
  apply and_then_passed in H as (?&params&?&_&H&_).
  apply and_then_passed in H as (?&query&?&_&H&_).
  apply and_then_passed in H as (?&hs&?&_&H&_).
  apply and_then_passed in H as (?&type&?&_&H&_).
  apply and_then_passed in H as (?&content&?&_&H&_).
  unfold proceed in H. injection H as _ <-. auto.
Qed.

Lemma find_response_matches (definition : RouteDefinition) (status : Z)
    (type : string) (def : ResponseDefinition) :
  find_response definition status type = Some def →
  In def (responses_of (route_response definition))
  ∧ response_status def = status
  ∧ response_mime def = MimeOne type.
Proof.
  unfold find_response. intros H. apply find_some in H as [Hin Hmatch].
  apply andb_prop in Hmatch as [Hstatus Hmime].
  split; [done|]. split; [by apply Z.eqb_eq|].
  unfold mime_is in Hmime. destruct (response_mime def); [|done].
  by apply String.eqb_eq in Hmime as ->.
Qed.


(** C6, as the code has it. When the bound response operation is
    called with a status and mime that no declared definition matches,
    the lookup yields [undefined] and reading its [raw] member throws a
    [TypeError]: nothing is logged, no issue response is built, and a
    handler that returns the result of the call makes the route throw. *)
Theorem undeclared_response_throws (this : Traffic)
    (definition : RouteDefinition) (context : RawRouteContext)
    (passed : list LogEntry) (event : RequestContext)
    (status : Z) (type : string) (rawData : JsValue) (hs : option HeadersInit) :
  request_context this definition context = (passed, Returned (inr event)) →
  find_response definition status type = None →
  ctx_response event status type rawData hs
  = ([], Thrown (TypeError "Cannot read properties of undefined (reading 'raw')"))
  ∧ route this definition (λ ctx, ctx_response ctx status type rawData hs) context
    = (passed, Thrown (TypeError "Cannot read properties of undefined (reading 'raw')")).
Proof.
  intros Hctx Hfind.
  destruct (request_context_binds _ _ _ _ _ Hctx) as (Hbound & _).
  assert (Hcall : ctx_response event status type rawData hs
                  = ([], Thrown (TypeError
                       "Cannot read properties of undefined (reading 'raw')"))).
  { rewrite Hbound. unfold responseFactory. by rewrite Hfind. }
  split; [done|].
  rewrite (route_proceeds _ _ _ _ _ _ Hctx), Hcall. simpl. by rewrite app_nil_r.
Qed.

(** C7. The headers stage validates, for every declared header name,
    the value that [searchParams.get] finds in the query string of the
    request URL: the stage stops at the first declared name whose
    query-string value is rejected and otherwise gathers the validated
    query-string values, and replacing the HTTP header map (and the
    body) of the request by any other leaves its result unchanged. *)
Theorem headers_are_validated_from_the_query_string (traffic : Traffic)
    (accept : string) (definition : RouteDefinition) (request : Request) :
  headers_stage traffic accept definition request
  = match first_failure header_shape (query_value request)
            (entries_of (request_headers (route_request definition))) with
    | Some error =>
        leave (raise_issue traffic accept "/traffic/request/invalid-headers"
                 [ArgError error])
    | None =>
        proceed (validated_fields header_shape (query_value request)
                   (entries_of (request_headers (route_request definition))) ∅)
    end
  ∧ ∀ (other_headers : string → option string) (other_body : string),
      headers_stage traffic accept definition
        (MkRequest (request_url request) other_headers other_body)
      = headers_stage traffic accept definition request.
Proof.
  split; [apply headers_stage_spec|].
  intros other_headers other_body. by rewrite !headers_stage_spec.
Qed.

(** *** Media types without a suffix *)

Lemma js_split_absent (sep : ascii) (s : string) :
  contains_char sep s = false → js_split sep s = [s].
Proof.
  induction s as [|c rest IH]; simpl; [done|].
  intros H. apply orb_false_elim in H as [Hc Hrest].
  rewrite Hc, (IH Hrest). done.
Qed.

Lemma new_Mime_without_plus (type : string) :
  (∀ parsed, ct_parse type = Returned parsed →
             contains_char "+" (ct_type parsed) = false) →
  ∃ e, new_Mime type = Thrown e.
Proof.
  intros Hplus. unfold new_Mime.
  destruct (ct_parse type) as [parsed|e]; [|eauto].
  cbv zeta. unfold js_split_limit.
  rewrite (js_split_absent "+" _ (Hplus parsed eq_refl)).
  change (take 2 [ct_type parsed] !! 1%nat) with (@None string).
  simpl falsy. rewrite !orb_true_r. eauto.
Qed.

Lemma Mime_of_nonempty (type : string) :
  type ≠ "" → Mime_of (Some type) = (m ← lift (new_Mime type); mret (Some m)).
Proof.
  intros Hne. unfold Mime_of, truthy, falsy.
  destruct (String.eqb_spec type ""); [done|reflexivity].
Qed.

(** The same constructor guards the compatibility stage: a request
    whose Content-Type has no [+] makes the stage throw, whatever the
    route supports. *)
Lemma content_type_without_suffix_throws (traffic : Traffic)
    (definition : RouteDefinition) (request : Request) (type : string) :
  header_get request "Content-Type" = Some type →
  type ≠ "" →
  (∀ parsed, ct_parse type = Returned parsed →
             contains_char "+" (ct_type parsed) = false) →
  ∃ e, content_type_stage traffic definition request = ([], Thrown e).
Proof.
  intros Hct Hne Hplus. destruct (new_Mime_without_plus _ Hplus) as [e He].
  exists e. unfold content_type_stage.
  by rewrite Hct, (Mime_of_nonempty _ Hne), He.
Qed.


(** C10. Without a Content-Type header the compatibility stage does not
    throw. The effective type is ["application/octet-stream"], which has
    no [+], so the whole string is the key that is looked up: the stage
    passes, handing on that type, exactly when the declared mime list
    contains that string, and otherwise answers 400 with the
    [unsupported-content-type] issue. *)
Theorem missing_content_type_is_octet_stream (traffic : Traffic)
    (definition : RouteDefinition) (request : Request) :
  header_get request "Content-Type" = None →
  builtin traffic "/traffic/request/unsupported-content-type" →
  js_pop (js_split_limit "+" 2 "application/octet-stream")
  = Some "application/octet-stream"
  ∧ (In "application/octet-stream" (mimes_of (request_mime (route_request definition))) →
     content_type_stage traffic definition request
     = ([], Returned (inr "application/octet-stream")))
  ∧ (¬ In "application/octet-stream"
         (mimes_of (request_mime (route_request definition))) →
     content_type_stage traffic definition request
     = ([], Returned (inl
         (MkResponse 400
            (or_undefined (JSON_stringify (issue_to_js
               (MkIssue "/traffic/request/unsupported-content-type" 400 (Some true)
                  None
                  (unsupported_content_type_fields
                     (JArr (JStr <$> mimes_of
                                       (request_mime (route_request definition)))))))))
            None None)))).
Proof.
  intros Hnone Hb. split; [reflexivity|].
  unfold content_type_stage. rewrite Hnone. simpl Mime_of. rewrite bind_ret.
  change (js_pop (js_split_limit "+" 2 (default "application/octet-stream"
                                           (mime_type <$> None))))
    with (Some "application/octet-stream").
  simpl default. unfold includes.
  split; intros Hin.
  - assert (Hex : existsb (String.eqb "application/octet-stream")
                    (mimes_of (request_mime (route_request definition))) = true).
    { apply existsb_exists. eexists. split; [exact Hin|]. apply String.eqb_refl. }
    rewrite Hex. reflexivity.
  - assert (Hex : existsb (String.eqb "application/octet-stream")
                    (mimes_of (request_mime (route_request definition))) = false).
    { apply not_true_is_false. intros Hex. apply Hin.
      apply existsb_exists in Hex as (x & Hx & Heq).
      by apply String.eqb_eq in Heq as ->. }
    rewrite Hex. simpl negb. cbv iota.
    unfold builtin in Hb.
    rewrite (Issues_new_registered _ _ unsupported_content_type_issue) by done.
    reflexivity.
Qed.

(** *** The codecs *)

Lemma Traffic_seralize_key (data : JsValue) (type : string) (m : Mime) :
  type ≠ "" → new_Mime type = Returned m →
  Traffic_seralize data type
  = match codec_key (Some m) with
    | Some key =>
        if String.eqb key "json" then mret (Some (or_undefined (JSON_stringify data)))
        else if String.eqb key "plain" then mret (Some (JStr (js_String data)))
        else mret None
    | None => mret None
    end.
Proof.
  intros Hne Hm. unfold Traffic_seralize.
  rewrite (Mime_of_nonempty _ Hne), Hm. by rewrite bind_lift, bind_ret.
Qed.

Lemma Traffic_parse_key (request : Request) (type : string) (m : Mime) :
  type ≠ "" → new_Mime type = Returned m →
  header_get request "Content-Type" = Some type →
  Traffic_parse request
  = match codec_key (Some m) with
    | Some key =>
        if String.eqb key "json" then
          value ← lift (JSON_parse (request_body request)); mret (Some value)
        else if String.eqb key "plain" then
          mret (Some (JStr (request_body request)))
        else if String.eqb key "form-data" then
          value ← lift (decode_form_data (Some type) (request_body request));
          mret (Some value)
        else mret None
    | None => mret None
    end.
Proof.
  intros Hne Hm Hct. unfold Traffic_parse. rewrite Hct.
  rewrite (Mime_of_nonempty _ Hne), Hm. by rewrite bind_lift, bind_ret.
Qed.

Lemma Traffic_seralize_returned (data : JsValue) (type : string)
    (log : list LogEntry) (value : JsValue) :
  Traffic_seralize data type = (log, Returned (Some value)) →
  type ≠ ""
  ∧ ∃ m, new_Mime type = Returned m
         ∧ ((codec_key (Some m) = Some "json"
             ∧ value = or_undefined (JSON_stringify data))
            ∨ (codec_key (Some m) = Some "plain"
               ∧ value = JStr (js_String data))).
Proof.
  destruct (String.eqb_spec type "") as [->|Hne].
  { intros [=]. }
  intros H. split; [done|].
  destruct (new_Mime type) as [m|e] eqn:Hm.
  - exists m. split; [done|]. rewrite (Traffic_seralize_key _ _ _ Hne Hm) in H.
    destruct (codec_key (Some m)) as [key|]; [|by inversion H].
    revert H. destruct (String.eqb_spec key "json") as [Hjson|_].
    { intros [= _ <-]. left. by rewrite Hjson. }
    destruct (String.eqb_spec key "plain") as [Hplain|_].
    { intros [= _ <-]. right. by rewrite Hplain. }
    intros [=].
  - unfold Traffic_seralize in H. rewrite (Mime_of_nonempty _ Hne), Hm in H.
    inversion H.
Qed.

(** The round trip where an encoding exists. Take a request whose
    Content-Type is a media type and whose body is the text that
    encoding [v] under that media type produced.
    If the media type is of the json kind and [JSON] reads the text back
    as [v] (no type was lost), or it is of the plain kind and [v] is a
    string, then decoding the request yields [v]. *)
Theorem decode_after_encode_is_identity (type : string) (request : Request)
    (v : JsValue) :
  header_get request "Content-Type" = Some type →
  Traffic_seralize v type = ([], Returned (Some (JStr (request_body request)))) →
  (kind_of type = Some "json" → JSON_parse (request_body request) = Returned v) →
  (kind_of type = Some "plain" → ∃ s, v = JStr s) →
  (kind_of type = Some "json" ∨ kind_of type = Some "plain")
  ∧ Traffic_parse request = ([], Returned (Some v)).
Proof.
  intros Hct Hencode Hjson Hplain.
  destruct (Traffic_seralize_returned _ _ _ _ Hencode)
    as (Hne & m & Hm & Hkind).
  rewrite (Traffic_parse_key _ _ _ Hne Hm Hct).
  unfold kind_of in *. rewrite Hm in *.
  destruct Hkind as [(Hkey & Hbody)|(Hkey & Hbody)]; rewrite Hkey in *.
  - split; [by left|]. simpl. by rewrite (Hjson eq_refl).
  - split; [by right|]. destruct (Hplain eq_refl) as [s ->].
    simpl in *. by inversion Hbody.
Qed.

End Pipeline.

(** ** The properties on closed requests *)

Section Closed.
Import Reference Examples.
#[local] Existing Instance engine.

Lemma schema_violation_short_circuits_witness :
  ∃ code error log body,
    first_violation users_route bad_id = Some (code, error)
    ∧ route traffic users_route greet bad_id
      = issueResponseFactory (raw_traffic bad_id)
          (accept_of traffic (raw_request bad_id))
          (MkIssue code 400 (Some true) None (validation_fields error)) None
    ∧ route traffic users_route greet bad_id
      = (log, Returned (MkResponse 400 body None None))
    ∧ ∀ other : RouteHandler,
        route traffic users_route other bad_id
        = route traffic users_route greet bad_id.
Proof.
  apply (@schema_violation_short_circuits engine traffic users_route greet bad_id).
  - vm_compute. reflexivity.
  - vm_compute. reflexivity.
  - vm_compute. reflexivity.
  - left. eexists "id", _, _. split; [left; reflexivity|]. vm_compute. reflexivity.
Defined.

(** The scenario of the specification: [id = "abc"] on a numeric
    parameter is answered with status 400 by the [invalid-params] issue;
    under the default Accept the body is not rendered. *)
Example bad_id_is_invalid_params :
  first_violation users_route bad_id
  = Some ("/traffic/request/invalid-params",
          MkZodError (MkZodIssue "invalid_type" []
                        "Expected number, received string") [])
  ∧ route traffic users_route greet bad_id
    = ([serialize_failed (Some (CauseError (PlainError "Invalid mime type.")))],
       Returned (MkResponse 400 JUndefined None None)).
Proof. split; vm_compute; reflexivity. Qed.


(** The route as a whole, for the handler that sends the wrong payload:
    the client sees status 500 and not the payload. *)
Example bad_payload_is_unknown_issue :
  route traffic users_route greet_badly good
  = ([MkLog "Response content is invalid."
        (Some (CauseZod (invalid_type "object" (JNum 5))));
      serialize_failed (Some (CauseError (PlainError "Invalid mime type.")))],
     Returned (MkResponse 500 JUndefined None None)).
Proof. vm_compute. reflexivity. Qed.


(** C6 fails on the code: the handler [not_found] answers with the pair
    (404, json), which [users_route] does not declare; the route throws
    a [TypeError], nothing is logged and there is no response. *)
Lemma undeclared_response_counterexample :
  find_response users_route 404 "json" = None
  ∧ route traffic users_route not_found good
    = ([], Thrown (TypeError "Cannot read properties of undefined (reading 'raw')"))
  ∧ ¬ ∃ log response, route traffic users_route not_found good
                      = (log, Returned response).
Proof.
  split; [reflexivity|].
  assert (H : route traffic users_route not_found good
              = ([], Thrown (TypeError
                   "Cannot read properties of undefined (reading 'raw')")))
    by (vm_compute; reflexivity).
  split; [exact H|]. intros (log & response & Hr). rewrite H in Hr. discriminate.
Qed.

Lemma undeclared_response_throws_witness :
  ∃ event,
    request_context traffic users_route good = ([], Returned (inr event))
    ∧ ctx_response event 404 "json" JNull None
      = ([], Thrown (TypeError "Cannot read properties of undefined (reading 'raw')"))
    ∧ route traffic users_route (λ ctx, ctx_response ctx 404 "json" JNull None) good
      = ([], Thrown (TypeError "Cannot read properties of undefined (reading 'raw')")).
Proof.
  eexists. split.
  - reflexivity.
  - eapply (@undeclared_response_throws engine traffic users_route good
              [] _ 404 "json" JNull None).
    + reflexivity.
    + reflexivity.
Defined.

(** C5 on the code. [json_route] supports the request subtype [json]
    only; for a request with [Content-Type: text/plain] the [Mime]
    constructor of line 213 throws, because the type has no [+], before
    the list of supported types is consulted: the route throws
    ["Invalid mime type."] and there is no response with status 400. *)
Theorem text_plain_request_throws :
  mimes_of (request_mime (route_request json_route)) = ["json"]
  ∧ header_get (raw_request text_plain) "Content-Type" = Some "text/plain"
  ∧ new_Mime "text/plain" = Thrown (PlainError "Invalid mime type.")
  ∧ route traffic json_route greet text_plain
    = ([], Thrown (PlainError "Invalid mime type.")).
Proof. repeat split; vm_compute; reflexivity. Qed.

(** The sibling case: a media type that does carry a suffix, other than
    [json], is answered as the specification describes, with status 400
    and a body whose [code] is the [unsupported-content-type] code and
    whose [supported] is [["json"]]. *)
Example unsupported_suffix_is_answered :
  ∃ text,
    route traffic json_route greet suffixed_xml
    = ([], Returned (MkResponse 400 (JStr text) None None))
    ∧ JSON_parse text
      = Returned (JObj [("status", JNum 400); ("deflected", JBool true);
                        ("description", JStr "Request content type is not supported.");
                        ("supported", JArr [JStr "json"]);
                        ("code", JStr "/traffic/request/unsupported-content-type")]).
Proof.
  eexists. split; [vm_compute; reflexivity|].
  vm_compute. reflexivity.
Qed.

(** C7 on two requests: the version sent as an HTTP header only is not
    seen by the headers stage, the one sent in the query string is. *)
Example header_map_is_not_consulted :
  header_get (raw_request version_in_header) "X-Api-Version" = Some "2"
  ∧ first_violation users_route version_in_header
    = Some ("/traffic/request/invalid-headers",
            MkZodError (MkZodIssue "invalid_literal" []
                          (String.append "Invalid literal value, expected "
                             (String.append quote (String.append "2" quote)))) [])
  ∧ header_get (raw_request good) "X-Api-Version" = None
  ∧ first_violation users_route good = None.
Proof. repeat split; vm_compute; reflexivity. Qed.

(** With an Accept value that carries the suffix [json] the body of the
    same issue is rendered. *)
Example issue_body_is_rendered_with_suffix :
  ∃ text,
    route traffic users_route greet bad_id_problem_json
    = ([], Returned (MkResponse 400 (JStr text) None None))
    ∧ JSON_parse text
      = Returned
          (JObj [("status", JNum 400); ("deflected", JBool true);
                 ("description", JStr "Expected number, received string");
                 ("issues",
                  JArr [JObj [("code", JStr "invalid_type"); ("path", JArr []);
                              ("message", JStr "Expected number, received string")]]);
                 ("code", JStr "/traffic/request/invalid-params")]).
Proof.
  eexists. split; [vm_compute; reflexivity|].
  vm_compute. reflexivity.
Qed.


Lemma missing_content_type_is_octet_stream_witness :
  js_pop (js_split_limit "+" 2 "application/octet-stream")
  = Some "application/octet-stream"
  ∧ (In "application/octet-stream" (mimes_of (request_mime (route_request json_route))) →
     content_type_stage traffic json_route (raw_request untyped)
     = ([], Returned (inr "application/octet-stream")))
  ∧ (¬ In "application/octet-stream"
         (mimes_of (request_mime (route_request json_route))) →
     content_type_stage traffic json_route (raw_request untyped)
     = ([], Returned (inl
         (MkResponse 400
            (or_undefined (JSON_stringify (issue_to_js
               (MkIssue "/traffic/request/unsupported-content-type" 400 (Some true)
                  None
                  (unsupported_content_type_fields
                     (JArr (JStr <$> mimes_of
                                       (request_mime (route_request json_route)))))))))
            None None)))).
Proof.
  apply (@missing_content_type_is_octet_stream engine traffic json_route
           (raw_request untyped)).
  - reflexivity.
  - vm_compute. reflexivity.
Defined.

Lemma decode_after_encode_is_identity_witness :
  (kind_of "application/ld+json" = Some "json"
   ∨ kind_of "application/ld+json" = Some "plain")
  ∧ Traffic_parse json_body
    = ([], Returned (Some (JArr [JNum 1; JBool true; JNull]))).
Proof.
  apply (@decode_after_encode_is_identity engine "application/ld+json"
           json_body (JArr [JNum 1; JBool true; JNull])).
  - reflexivity.
  - vm_compute. reflexivity.
  - intros _. vm_compute. reflexivity.
  - vm_compute. discriminate.
Defined.

(** The plain kind, on a media type whose suffix is [plain]. *)
Example plain_round_trip :
  Traffic_seralize (JStr "hello") "text/x.note+plain"
  = ([], Returned (Some (JStr "hello")))
  ∧ Traffic_parse (request_of [] [("Content-Type", "text/x.note+plain")] "hello")
    = ([], Returned (Some (JStr "hello"))).
Proof. split; vm_compute; reflexivity. Qed.

(** C8 on the code. Under the media types of the two kinds,
    [application/json] and [text/plain], there is nothing to decode and
    nothing decodes: the [Mime] constructor throws on a type without
    [+], so encoding any value throws ["Invalid mime type."] and so does
    decoding any request that carries one of them as its Content-Type,
    whatever the value and whatever the body. No value makes the round
    trip. *)
Theorem canonical_media_types_do_not_round_trip (v : JsValue) (body : string) :
  new_Mime "application/json" = Thrown (PlainError "Invalid mime type.")
  ∧ new_Mime "text/plain" = Thrown (PlainError "Invalid mime type.")
  ∧ Traffic_seralize v "application/json"
    = ([], Thrown (PlainError "Invalid mime type."))
  ∧ Traffic_seralize v "text/plain"
    = ([], Thrown (PlainError "Invalid mime type."))
  ∧ Traffic_parse
      (request_of [] [("Content-Type", "application/json")] body)
    = ([], Thrown (PlainError "Invalid mime type."))
  ∧ Traffic_parse
      (request_of [] [("Content-Type", "text/plain")] body)
    = ([], Thrown (PlainError "Invalid mime type.")).
Proof. repeat split; vm_compute; reflexivity. Qed.

End Closed.

(** * Further properties of the code *)

(** ** The registry: [Issues.new] and [Issues.override] *)

Section RegistryLaws.

(** X2. After [override(code, factory)], [new] runs the new factory under
    that code, whether or not the code was registered before, and every
    other code behaves as it did.  The last [override] of a code wins,
    and overrides of different codes do not depend on their order. *)
Theorem Issues_override_laws (self : Issues) (C : string) (factory : IssueFactory)
    (args : list Arg) :
  Issues_new (Issues_override self C factory) C args
  = match factory args with
    | Thrown e => Thrown e
    | Returned fields =>
        Returned (MkIssue C (fields_status fields)
                    (Some (default false (fields_deflected fields)))
                    (fields_headers fields) (fields_extra fields))
    end
  ∧ (∀ other, other ≠ C →
       Issues_new (Issues_override self C factory) other args
       = Issues_new self other args)
  ∧ (∀ earlier : IssueFactory,
       Issues_override (Issues_override self C earlier) C factory
       = Issues_override self C factory)
  ∧ (∀ (D : string) (second : IssueFactory), C ≠ D →
       Issues_override (Issues_override self C factory) D second
       = Issues_override (Issues_override self D second) C factory).
Proof.
  split; [|split; [|split]].
  - apply Issues_new_registered. simpl. apply lookup_insert_eq.
  - intros other Hne. unfold Issues_new, Issues_override. simpl.
    by rewrite lookup_insert_ne.
  - intros earlier. unfold Issues_override. simpl. by rewrite insert_insert_eq.
  - intros D second Hne. unfold Issues_override. simpl.
    by rewrite insert_insert_ne.
Qed.

End RegistryLaws.

(** ** The media-type descriptor *)

Section MimeLaws.
Context {engine : Engine}.

Lemma string_app_nil_r (s : string) : s +:+ "" = s.
Proof.
  induction s as [|c s IH]; [done|].
  change (String c (s +:+ "") = String c s). by rewrite IH.
Qed.

Lemma string_app_assoc (s t u : string) : (s +:+ t) +:+ u = s +:+ t +:+ u.
Proof.
  induction s as [|c s IH]; [done|].
  change (String c ((s +:+ t) +:+ u) = String c (s +:+ t +:+ u)). by rewrite IH.
Qed.

Lemma js_split_cons (sep : ascii) (s : string) :
  ∃ piece pieces, js_split sep s = piece :: pieces.
Proof.
  induction s as [|c rest (piece & pieces & IH)]; simpl; [eauto|].
  destruct (Ascii.eqb c sep); [eauto|]. rewrite IH. eauto.
Qed.

Lemma js_split_pieces (sep : ascii) (s : string) :
  Forall (λ piece, contains_char sep piece = false) (js_split sep s).
Proof.
  induction s as [|c rest IH]; simpl.
  - by constructor.
  - destruct (Ascii.eqb c sep) eqn:Hc.
    + by constructor.
    + destruct (js_split sep rest) as [|piece pieces].
      * constructor; [|done]. simpl. by rewrite Hc.
      * inversion IH; subst. constructor; [|done]. simpl. by rewrite Hc.
Qed.

Lemma js_split_single (sep : ascii) (s x : string) :
  js_split sep s = [x] → s = x.
Proof.
  revert x. induction s as [|c rest IH]; simpl; intros x H.
  - by injection H.
  - destruct (js_split_cons sep rest) as (p & ps & Hp). rewrite Hp in *.
    destruct (Ascii.eqb c sep); [discriminate|].
    injection H as <- ->. by rewrite (IH p eq_refl).
Qed.

(** The first two pieces of a split, put together again, begin the
    string. *)
Lemma js_split_two (sep : ascii) (s first second : string) (more : list string) :
  js_split sep s = first :: second :: more →
  ∃ tail, s = first +:+ String sep second +:+ tail
          ∧ (more = [] → tail = "").
Proof.
  revert first second more.
  induction s as [|c rest IH]; simpl; intros first second more H; [done|].
  destruct (Ascii.eqb_spec c sep) as [->|Hc].
  - injection H as <- Hrest. destruct more as [|third more].
    + exists "". rewrite (js_split_single _ _ _ Hrest).
      simpl. by rewrite string_app_nil_r.
    + destruct (IH _ _ _ Hrest) as (tail & -> & _).
      exists (String sep third +:+ tail). split; [|done]. reflexivity.
  - destruct (js_split sep rest) as [|p ps] eqn:Hp; [discriminate|].
    injection H as <- ->. destruct (IH _ _ _ eq_refl) as (tail & -> & Htail).
    exists tail. split; [reflexivity|done].
Qed.

Lemma js_split_second (sep : ascii) (s x : string) :
  js_split sep s !! 1%nat = Some x → contains_char sep s = true.
Proof.
  intros H. destruct (contains_char sep s) eqn:Hc; [done|].
  by rewrite (js_split_absent sep s Hc) in H.
Qed.

Lemma falsy_false (x : option string) :
  falsy x = false → ∃ s, x = Some s ∧ s ≠ "".
Proof.
  destruct x as [s|]; simpl; [|done]. intros H. exists s. split; [done|].
  by apply String.eqb_neq.
Qed.

Lemma two_pieces (pieces : list string) (first second : string) :
  take 2 pieces !! 0%nat = Some first → take 2 pieces !! 1%nat = Some second →
  ∃ more, pieces = first :: second :: more.
Proof.
  destruct pieces as [|a [|b more]]; simpl; try done.
  intros [= ->] [= ->]. eauto.
Qed.

(** What a successful construction read from the parsed type. *)
Lemma new_Mime_inv (mimeType : string) (m : Mime) :
  new_Mime mimeType = Returned m →
  ∃ parsed suf more_slash more_plus,
    ct_parse mimeType = Returned parsed
    ∧ js_split "/" (ct_type parsed) = media m :: subtype m :: more_slash
    ∧ js_split "+" (ct_type parsed) = protocol m :: suf :: more_plus
    ∧ media m ≠ "" ∧ subtype m ≠ "" ∧ protocol m ≠ "" ∧ suf ≠ ""
    ∧ suffix m = Some suf
    ∧ mime_type m = ct_type parsed
    ∧ mime_params m = ct_parameters parsed.
Proof.
  unfold new_Mime. destruct (ct_parse mimeType) as [parsed|e]; [|done].
  cbv zeta. unfold js_split_limit.
  destruct (falsy (take 2 (js_split "/" (ct_type parsed)) !! 0%nat)) eqn:H1; [done|].
  destruct (falsy (take 2 (js_split "/" (ct_type parsed)) !! 1%nat)) eqn:H2; [done|].
  destruct (falsy (take 2 (js_split "+" (ct_type parsed)) !! 0%nat)) eqn:H3; [done|].
  destruct (falsy (take 2 (js_split "+" (ct_type parsed)) !! 1%nat)) eqn:H4; [done|].
  apply falsy_false in H1 as (med & H1 & ?), H2 as (sub & H2 & ?),
      H3 as (pro & H3 & ?), H4 as (suf & H4 & ?).
  rewrite H1, H2, H3, H4. simpl. intros [= <-]. simpl.
  destruct (two_pieces _ _ _ H1 H2) as [more_slash ?].
  destruct (two_pieces _ _ _ H3 H4) as [more_plus ?].
  exists parsed, suf, more_slash, more_plus. auto 10.
Qed.

(** X4. A descriptor that was constructed has all of its parts: none of
    [media], [subtype], [protocol] and [suffix] is empty, [suffix] is
    never [null], the slash parts hold no [/] and the plus parts no [+].
    The codecs therefore always switch on the suffix; the [subtype]
    fallback of [mime?.suffix ?? mime?.subtype] is never taken. *)
Theorem Mime_parts (mimeType : string) (m : Mime) :
  new_Mime mimeType = Returned m →
  ∃ suf,
    suffix m = Some suf ∧ suf ≠ ""
    ∧ media m ≠ "" ∧ subtype m ≠ "" ∧ protocol m ≠ ""
    ∧ contains_char "/" (media m) = false
    ∧ contains_char "/" (subtype m) = false
    ∧ contains_char "+" (protocol m) = false
    ∧ contains_char "+" suf = false
    ∧ contains_char "/" (mime_type m) = true
    ∧ contains_char "+" (mime_type m) = true
    ∧ codec_key (Some m) = Some suf.
Proof.
  intros H.
  destruct (new_Mime_inv _ _ H)
    as (parsed & suf & ms & mp & _ & Hs & Hp & ? & ? & ? & ? & Hsuf & Ht & _).
  pose proof (js_split_pieces "/" (ct_type parsed)) as Fs.
  pose proof (js_split_pieces "+" (ct_type parsed)) as Fp.
  rewrite Hs in Fs. rewrite Hp in Fp.
  inversion Fs as [|? ? ? Fs']; subst. inversion Fs'; subst.
  inversion Fp as [|? ? ? Fp']; subst. inversion Fp'; subst.
  exists suf. rewrite Ht. repeat split; try done.
  - apply (js_split_second "/" _ (subtype m)). by rewrite Hs.
  - apply (js_split_second "+" _ suf). by rewrite Hp.
  - simpl. by rewrite Hsuf.
Qed.

(** X5. The parts begin the type they were cut from: it starts with
    [media "/" subtype] and with [protocol "+" suffix], and is equal to
    them when it has one [/], respectively one [+]; what follows a
    second separator is dropped by the limit of the split. *)
Theorem Mime_type_decomposition (mimeType : string) (m : Mime) :
  new_Mime mimeType = Returned m →
  ∃ suf after_subtype after_suffix,
    suffix m = Some suf
    ∧ mime_type m = media m +:+ String "/" (subtype m) +:+ after_subtype
    ∧ mime_type m = protocol m +:+ String "+" suf +:+ after_suffix
    ∧ (length (js_split "/" (mime_type m)) = 2%nat → after_subtype = "")
    ∧ (length (js_split "+" (mime_type m)) = 2%nat → after_suffix = "").
Proof.
  intros H.
  destruct (new_Mime_inv _ _ H)
    as (parsed & suf & ms & mp & _ & Hs & Hp & _ & _ & _ & _ & Hsuf & Ht & _).
  destruct (js_split_two _ _ _ _ _ Hs) as (t1 & Ht1 & Hm1).
  destruct (js_split_two _ _ _ _ _ Hp) as (t2 & Ht2 & Hm2).
  exists suf, t1, t2. rewrite Ht, Hs, Hp. repeat split; try done.
  - simpl. intros [= Hlen]. apply Hm1. by destruct ms.
  - simpl. intros [= Hlen]. apply Hm2. by destruct mp.
Qed.

End MimeLaws.

(** ** The codecs, case by case *)

Section CodecLaws.
Context {engine : Engine}.

Lemma Mime_of_empty : Mime_of (Some "") = mret None.
Proof. reflexivity. Qed.

Lemma codec_key_suffix (m : Mime) (suf : string) :
  suffix m = Some suf → codec_key (Some m) = Some suf.
Proof. intros H. simpl. by rewrite H. Qed.

(** X6. [Traffic.parse], outcome by outcome.  Without a Content-Type (or
    with an empty one) it yields [null] and does not look at the body.
    When the [Mime] constructor rejects the header, its exception is
    the exception of [parse].  Otherwise the suffix alone decides: a
    [json] body is what [JSON.parse] makes of the text, so malformed
    text throws rather than yielding [null]; a [plain] body is the
    text; [form-data] is the multipart decoding; any other suffix
    yields [null].  Nothing is logged. *)
Theorem Traffic_parse_outcomes (request : Request) :
  (header_get request "Content-Type" = None
   ∨ header_get request "Content-Type" = Some "" →
   Traffic_parse request = ([], Returned None))
  ∧ (∀ type e,
       header_get request "Content-Type" = Some type → type ≠ "" →
       new_Mime type = Thrown e →
       Traffic_parse request = ([], Thrown e))
  ∧ (∀ type m suf,
       header_get request "Content-Type" = Some type → type ≠ "" →
       new_Mime type = Returned m → suffix m = Some suf →
       Traffic_parse request
       = if String.eqb suf "json" then
           match JSON_parse (request_body request) with
           | Returned value => ([], Returned (Some value))
           | Thrown e => ([], Thrown e)
           end
         else if String.eqb suf "plain" then
           ([], Returned (Some (JStr (request_body request))))
         else if String.eqb suf "form-data" then
           match decode_form_data (Some type) (request_body request) with
           | Returned value => ([], Returned (Some value))
           | Thrown e => ([], Thrown e)
           end
         else ([], Returned None)).
Proof.
  split; [|split].
  - intros [H|H]; unfold Traffic_parse; by rewrite H.
  - intros type e Hct Hne Hm. unfold Traffic_parse.
    by rewrite Hct, (Mime_of_nonempty _ Hne), Hm.
  - intros type m suf Hct Hne Hm Hsuf.
    rewrite (Traffic_parse_key _ _ _ Hne Hm Hct), (codec_key_suffix _ _ Hsuf).
    destruct (String.eqb suf "json").
    { by destruct (JSON_parse (request_body request)). }
    destruct (String.eqb suf "plain"); [done|].
    destruct (String.eqb suf "form-data"); [|done].
    by destruct (decode_form_data (Some type) (request_body request)).
Qed.

(** X7. [Traffic.seralize], outcome by outcome.  An empty type yields
    [null]; a type the [Mime] constructor rejects makes the call throw;
    otherwise the suffix alone decides: [json] gives the text of
    [JSON.stringify], whose [value] is [undefined] when the data has no
    JSON text, [plain] gives [String(data)], and any other suffix
    yields [null].  Nothing is logged. *)
Theorem Traffic_seralize_outcomes (data : JsValue) (type : string) :
  (type = "" → Traffic_seralize data type = ([], Returned None))
  ∧ (∀ e, type ≠ "" → new_Mime type = Thrown e →
          Traffic_seralize data type = ([], Thrown e))
  ∧ (∀ m suf, type ≠ "" → new_Mime type = Returned m → suffix m = Some suf →
       Traffic_seralize data type
       = ([], Returned
                (if String.eqb suf "json" then
                   Some (match JSON_stringify data with
                         | Some text => JStr text
                         | None => JUndefined
                         end)
                 else if String.eqb suf "plain" then Some (JStr (js_String data))
                 else None))).
Proof.
  split; [|split].
  - by intros ->.
  - intros e Hne Hm. unfold Traffic_seralize.
    by rewrite (Mime_of_nonempty _ Hne), Hm.
  - intros m suf Hne Hm Hsuf.
    rewrite (Traffic_seralize_key _ _ _ Hne Hm), (codec_key_suffix _ _ Hsuf).
    destruct (String.eqb suf "json"); [done|].
    by destruct (String.eqb suf "plain").
Qed.

End CodecLaws.

(** ** The stages of the pipeline *)

Section StageLaws.
Context {engine : Engine}.

Lemma leave_not_proceeding {A} (m : M Response) (log : list LogEntry) (a : A) :
  leave m ≠ (log, Returned (inr a)).
Proof.
  unfold leave. destruct m as [l [r|e]]; [|done].
  rewrite bind_run. simpl. intros [=].
Qed.

Lemma validated_fields_lookup {S : Type} (shape : S → ZodType)
    (value_of : string → JsValue) (entries : list (string * S))
    (validated : gmap string JsValue) :
  first_failure shape value_of entries = None →
  NoDup entries.*1 →
  (∀ key schema, (key, schema) ∈ entries →
     ∃ data, safeParse (shape schema) (value_of key) = ParseSuccess data
             ∧ validated_fields shape value_of entries validated !! key = Some data)
  ∧ (∀ key, key ∉ entries.*1 →
       validated_fields shape value_of entries validated !! key = validated !! key).
Proof.
  revert validated.
  induction entries as [|[k s] rest IH]; intros validated Hok Hnodup.
  { split; [intros ? ? Hin; by apply elem_of_nil in Hin|done]. }
  simpl in *.
  destruct (safeParse (shape s) (value_of k)) as [d|] eqn:Hparse; [|done].
  apply NoDup_cons in Hnodup as [Hfresh Hnodup].
  destruct (IH (<[k := d]> validated) Hok Hnodup) as [Hin Hout].
  split.
  - intros key schema Hmem. apply elem_of_cons in Hmem as [[= -> ->]|Hmem].
    + exists d. split; [done|]. rewrite (Hout k Hfresh). apply lookup_insert_eq.
    + by apply Hin.
  - intros key Hkey. apply not_elem_of_cons in Hkey as [Hne Hkey].
    rewrite (Hout key Hkey). by apply lookup_insert_ne.
Qed.

(** X8. One validation loop that runs to its end: nothing was logged, every
    declared key holds the output of its schema on the value read for
    it, and no other key is present (declared keys are distinct, as
    [Object.entries] yields them). *)
Theorem validate_fields_proceeds {S : Type} (traffic : Traffic)
    (accept issue_code : string) (shape : S → ZodType)
    (value_of : string → JsValue) (entries : list (string * S))
    (log : list LogEntry) (validated : gmap string JsValue) :
  NoDup entries.*1 →
  validate_fields traffic accept issue_code shape value_of entries ∅
  = (log, Returned (inr validated)) →
  log = []
  ∧ (∀ key schema, (key, schema) ∈ entries →
       ∃ data, safeParse (shape schema) (value_of key) = ParseSuccess data
               ∧ validated !! key = Some data)
  ∧ (∀ key, key ∉ entries.*1 → validated !! key = None).
Proof.
  intros Hnodup. rewrite validate_fields_spec.
  destruct (first_failure shape value_of entries) as [error|] eqn:Hfirst.
  { intros H. by apply leave_not_proceeding in H. }
  intros [= <- <-]. split; [done|].
  destruct (validated_fields_lookup shape value_of entries ∅ Hfirst Hnodup)
    as [Hin Hout].
  split; [done|]. intros key Hkey. by rewrite (Hout key Hkey).
Qed.

(** *** Content-type compatibility *)

Lemma js_pop_suffix (type : string) (m : Mime) :
  new_Mime type = Returned m →
  js_pop (js_split_limit "+" 2 (mime_type m)) = suffix m.
Proof.
  intros H.
  destruct (new_Mime_inv _ _ H)
    as (parsed & suf & _ & mp & _ & _ & Hp & _ & _ & _ & _ & -> & -> & _).
  unfold js_split_limit. by rewrite Hp.
Qed.

Lemma includes_In (supported : list string) (x : string) :
  includes supported (Some x) = true ↔ In x supported.
Proof.
  simpl. rewrite existsb_exists. split.
  - intros (y & Hy & Heq). by apply String.eqb_eq in Heq as ->.
  - intros Hin. exists x. split; [done|]. apply String.eqb_refl.
Qed.

(** X10. With a Content-Type that the [Mime] constructor accepts, the key
    that is looked up in the declared mime list is the suffix of the
    type, not its subtype: the stage passes, handing on the type,
    exactly when the list contains the suffix, and otherwise answers 400
    with the [unsupported-content-type] issue that lists the declared
    mimes, without using [issueResponseFactory] (nothing is logged and
    the Accept header plays no part). *)
Theorem content_type_stage_by_suffix (traffic : Traffic)
    (definition : RouteDefinition) (request : Request)
    (type : string) (m : Mime) (suf : string) :
  header_get request "Content-Type" = Some type →
  type ≠ "" →
  new_Mime type = Returned m →
  suffix m = Some suf →
  builtin traffic "/traffic/request/unsupported-content-type" →
  (In suf (mimes_of (request_mime (route_request definition))) →
   content_type_stage traffic definition request
   = ([], Returned (inr (mime_type m))))
  ∧ (¬ In suf (mimes_of (request_mime (route_request definition))) →
     content_type_stage traffic definition request
     = ([], Returned (inl
         (MkResponse 400
            (or_undefined (JSON_stringify (issue_to_js
               (MkIssue "/traffic/request/unsupported-content-type" 400 (Some true)
                  None
                  (unsupported_content_type_fields
                     (JArr (JStr <$> mimes_of
                                       (request_mime (route_request definition)))))))))
            None None)))).
Proof.
  intros Hct Hne Hm Hsuf Hb.
  unfold content_type_stage. rewrite Hct, (Mime_of_nonempty _ Hne), Hm.
  rewrite bind_lift, bind_ret. simpl default.
  rewrite (js_pop_suffix _ _ Hm), Hsuf.
  split; intros Hin.
  - apply includes_In in Hin. by rewrite Hin.
  - assert (Hex : includes (mimes_of (request_mime (route_request definition)))
                    (Some suf) = false).
    { apply not_true_is_false. by rewrite includes_In. }
    rewrite Hex. simpl negb. cbv iota. unfold builtin in Hb.
    rewrite (Issues_new_registered _ _ unsupported_content_type_issue) by done.
    reflexivity.
Qed.

(** *** The stages in sequence *)

(** When no declared field is rejected, the three validation stages log
    nothing and the rest of the route runs on their outputs. *)
Lemma request_context_valid (this : Traffic) (definition : RouteDefinition)
    (context : RawRouteContext) :
  first_violation definition context = None →
  request_context this definition context
  = and_then (content_type_stage (raw_traffic context) definition
                (raw_request context)) (λ type,
    and_then (content_stage (raw_traffic context)
                (accept_of this (raw_request context)) definition
                (raw_request context) type) (λ content,
      proceed {|
        ctx_request := raw_request context;
        ctx_url := request_url (raw_request context);
        ctx_params :=
          validated_fields field_shape (param_value context)
            (entries_of (request_params (route_request definition))) ∅;
        ctx_query :=
          validated_fields field_shape (query_value (raw_request context))
            (entries_of (request_query (route_request definition))) ∅;
        ctx_headers :=
          validated_fields header_shape (query_value (raw_request context))
            (entries_of (request_headers (route_request definition))) ∅;
        ctx_content := content;
        ctx_response :=
          responseFactory (raw_traffic context)
            (accept_of this (raw_request context)) definition;
        ctx_issue :=
          issueResponseFactory (raw_traffic context)
            (accept_of this (raw_request context));
        ctx_traffic := raw_traffic context
      |})).
Proof.
  unfold first_violation, request_context.
  rewrite params_stage_spec, query_stage_spec, headers_stage_spec.
  destruct (first_failure field_shape (param_value context) _); [done|].
  destruct (first_failure field_shape (query_value _) _); [done|].
  destruct (first_failure header_shape (query_value _) _); [done|].
  intros _. by rewrite !and_then_proceed.
Qed.

Lemma request_context_passed_valid (this : Traffic) (definition : RouteDefinition)
    (context : RawRouteContext) (log : list LogEntry) (event : RequestContext) :
  request_context this definition context = (log, Returned (inr event)) →
  first_violation definition context = None.
Proof.
  intros H. destruct (first_violation definition context) as [[c e]|] eqn:Hv; [|done].
  rewrite (request_context_violation this _ _ _ _ Hv) in H.
  by apply leave_not_proceeding in H.
Qed.

(** If the route reaches its handler, no declared field was rejected
    and the event holds the outputs of the three validation loops. *)
Lemma event_holds_validated_fields (this : Traffic)
    (definition : RouteDefinition) (context : RawRouteContext)
    (log : list LogEntry) (event : RequestContext) :
  request_context this definition context = (log, Returned (inr event)) →
  first_violation definition context = None
  ∧ ctx_request event = raw_request context
  ∧ ctx_url event = request_url (raw_request context)
  ∧ ctx_traffic event = raw_traffic context
  ∧ ctx_params event
    = validated_fields field_shape (param_value context)
        (entries_of (request_params (route_request definition))) ∅
  ∧ ctx_query event
    = validated_fields field_shape (query_value (raw_request context))
        (entries_of (request_query (route_request definition))) ∅
  ∧ ctx_headers event
    = validated_fields header_shape (query_value (raw_request context))
        (entries_of (request_headers (route_request definition))) ∅.
Proof.
  intros H. pose proof (request_context_passed_valid _ _ _ _ _ H) as Hvalid.
  split; [done|]. rewrite (request_context_valid this _ _ Hvalid) in H.
  apply and_then_passed in H as (?&type&?&_&H&_).
  apply and_then_passed in H as (?&content&?&_&H&_).
  unfold proceed in H. injection H as _ <-. simpl. auto 10.
Qed.

(** X9. What the handler is given.  If the route reaches its handler, then
    for every declared param, query field and header the event holds the
    output of its schema on the value read for it (path parameters for
    [params], the query string for both [query] and [headers]), and a
    key that is not declared is absent from the event even when the raw
    path parameters or the query string carry it. *)
Theorem handler_receives_validated_fields (this : Traffic)
    (definition : RouteDefinition) (context : RawRouteContext)
    (log : list LogEntry) (event : RequestContext) :
  request_context this definition context = (log, Returned (inr event)) →
  NoDup (entries_of (request_params (route_request definition))).*1 →
  NoDup (entries_of (request_query (route_request definition))).*1 →
  NoDup (entries_of (request_headers (route_request definition))).*1 →
  ((∀ key schema,
      (key, schema) ∈ entries_of (request_params (route_request definition)) →
      ∃ data, safeParse (field_shape schema) (or_undefined (raw_params context !! key))
              = ParseSuccess data
              ∧ ctx_params event !! key = Some data)
   ∧ (∀ key, key ∉ (entries_of (request_params (route_request definition))).*1 →
        ctx_params event !! key = None))
  ∧ ((∀ key schema,
        (key, schema) ∈ entries_of (request_query (route_request definition)) →
        ∃ data, safeParse (field_shape schema)
                  (or_null (searchParams_get
                              (searchParams (request_url (raw_request context))) key))
                = ParseSuccess data
                ∧ ctx_query event !! key = Some data)
     ∧ (∀ key, key ∉ (entries_of (request_query (route_request definition))).*1 →
          ctx_query event !! key = None))
  ∧ ((∀ key schema,
        (key, schema) ∈ entries_of (request_headers (route_request definition)) →
        ∃ data, safeParse (header_shape schema)
                  (or_null (searchParams_get
                              (searchParams (request_url (raw_request context))) key))
                = ParseSuccess data
                ∧ ctx_headers event !! key = Some data)
     ∧ (∀ key, key ∉ (entries_of (request_headers (route_request definition))).*1 →
          ctx_headers event !! key = None)).
Proof.
  intros H Np Nq Nh.
  destruct (event_holds_validated_fields _ _ _ _ _ H)
    as (Hvalid & _ & _ & _ & -> & -> & ->).
  unfold first_violation in Hvalid.
  destruct (first_failure field_shape (param_value context) _) eqn:Fp; [done|].
  destruct (first_failure field_shape (query_value _) _) eqn:Fq; [done|].
  destruct (first_failure header_shape (query_value _) _) eqn:Fh; [done|].
  pose proof (validated_fields_lookup _ _ _ ∅ Fp Np) as [Pin Pout].
  pose proof (validated_fields_lookup _ _ _ ∅ Fq Nq) as [Qin Qout].
  pose proof (validated_fields_lookup _ _ _ ∅ Fh Nh) as [Hin Hout].
  repeat split; done.
Qed.

(** *** Routes that stop at the content type *)

Lemma route_stops_at_content_type (this : Traffic) (definition : RouteDefinition)
    (handler : RouteHandler) (context : RawRouteContext)
    (log : list LogEntry) (early : Response) :
  first_violation definition context = None →
  content_type_stage (raw_traffic context) definition (raw_request context)
  = (log, Returned (inl early)) →
  route this definition handler context = (log, Returned early).
Proof.
  intros Hvalid Hstage. unfold route.
  rewrite (request_context_valid this _ _ Hvalid), Hstage.
  unfold and_then. rewrite !bind_run. simpl. by rewrite !app_nil_r.
Qed.

Lemma route_throws_at_content_type (this : Traffic) (definition : RouteDefinition)
    (handler : RouteHandler) (context : RawRouteContext)
    (log : list LogEntry) (e : JsError) :
  first_violation definition context = None →
  content_type_stage (raw_traffic context) definition (raw_request context)
  = (log, Thrown e) →
  route this definition handler context = (log, Thrown e).
Proof.
  intros Hvalid Hstage. unfold route.
  by rewrite (request_context_valid this _ _ Hvalid), Hstage.
Qed.

Lemma and_then_returned {A B} (a : A) (rest : A → Stage B) :
  and_then ([], Returned (inr a)) rest = rest a.
Proof. exact (and_then_proceed a rest). Qed.

Lemma route_continues_with_content (this : Traffic) (definition : RouteDefinition)
    (handler : RouteHandler) (context : RawRouteContext) (type : string) :
  first_violation definition context = None →
  content_type_stage (raw_traffic context) definition (raw_request context)
  = ([], Returned (inr type)) →
  route this definition handler context
  = (r ← and_then (content_stage (raw_traffic context)
                     (accept_of this (raw_request context)) definition
                     (raw_request context) type) (λ content,
           proceed {|
             ctx_request := raw_request context;
             ctx_url := request_url (raw_request context);
             ctx_params :=
               validated_fields field_shape (param_value context)
                 (entries_of (request_params (route_request definition))) ∅;
             ctx_query :=
               validated_fields field_shape (query_value (raw_request context))
                 (entries_of (request_query (route_request definition))) ∅;
             ctx_headers :=
               validated_fields header_shape (query_value (raw_request context))
                 (entries_of (request_headers (route_request definition))) ∅;
             ctx_content := content;
             ctx_response :=
               responseFactory (raw_traffic context)
                 (accept_of this (raw_request context)) definition;
             ctx_issue :=
               issueResponseFactory (raw_traffic context)
                 (accept_of this (raw_request context));
             ctx_traffic := raw_traffic context
           |});
     match r with
     | inl early => mret early
     | inr event => handler event
     end).
Proof.
  intros Hvalid Hstage. unfold route.
  by rewrite (request_context_valid this _ _ Hvalid), Hstage, and_then_returned.
Qed.

(** X11. A request that violates no schema and whose Content-Type has no
    [+] makes the route throw, for every route, whatever it supports or
    declares, and for every handler: the [Mime] constructor of the
    compatibility stage is not guarded. *)
Theorem route_throws_without_suffix (this : Traffic)
    (definition : RouteDefinition) (handler : RouteHandler)
    (context : RawRouteContext) (type : string) :
  first_violation definition context = None →
  header_get (raw_request context) "Content-Type" = Some type →
  type ≠ "" →
  (∀ parsed, ct_parse type = Returned parsed →
             contains_char "+" (ct_type parsed) = false) →
  ∃ e, new_Mime type = Thrown e
       ∧ route this definition handler context = ([], Thrown e).
Proof.
  intros Hvalid Hct Hne Hplus.
  destruct (new_Mime_without_plus _ Hplus) as [e He]. exists e. split; [done|].
  apply route_throws_at_content_type; [done|].
  unfold content_type_stage. by rewrite Hct, (Mime_of_nonempty _ Hne), He.
Qed.

(** X12. An unsupported content type is answered before the body is looked
    at: when no schema is violated and the suffix of the Content-Type
    is not in the declared mime list, the route answers 400 with the
    hand-built [unsupported-content-type] body, whether or not the
    route declares a body schema and whatever the handler is. *)
Theorem route_rejects_unsupported_suffix (this : Traffic)
    (definition : RouteDefinition) (handler : RouteHandler)
    (context : RawRouteContext) (type : string) (m : Mime) (suf : string) :
  first_violation definition context = None →
  header_get (raw_request context) "Content-Type" = Some type →
  type ≠ "" →
  new_Mime type = Returned m →
  suffix m = Some suf →
  builtin (raw_traffic context) "/traffic/request/unsupported-content-type" →
  ¬ In suf (mimes_of (request_mime (route_request definition))) →
  route this definition handler context
  = ([], Returned
      (MkResponse 400
         (or_undefined (JSON_stringify (issue_to_js
            (MkIssue "/traffic/request/unsupported-content-type" 400 (Some true)
               None
               (unsupported_content_type_fields
                  (JArr (JStr <$> mimes_of
                                    (request_mime (route_request definition)))))))))
         None None)).
Proof.
  intros Hvalid Hct Hne Hm Hsuf Hb Hin.
  apply route_stops_at_content_type; [done|].
  unfold content_type_stage. rewrite Hct, (Mime_of_nonempty _ Hne), Hm.
  rewrite bind_lift, bind_ret. simpl default.
  rewrite (js_pop_suffix _ _ Hm), Hsuf.
  assert (Hex : includes (mimes_of (request_mime (route_request definition)))
                  (Some suf) = false).
  { apply not_true_is_false. by rewrite includes_In. }
  rewrite Hex. simpl negb. cbv iota. unfold builtin in Hb.
  rewrite (Issues_new_registered _ _ unsupported_content_type_issue) by done.
  reflexivity.
Qed.

End StageLaws.

(** ** The body stage *)

Section BodyLaws.
Context {engine : Engine}.


Lemma bind_returned {A B} (a : A) (k : A → M B) :
  (([], Returned a) ≫= k) = k a.
Proof. exact (bind_ret a k). Qed.

Lemma finish_leave (m : M Response) (handler : RouteHandler) :
  (r ← (leave m : Stage RequestContext);
   match r with
   | inl early => mret early
   | inr event => handler event
   end) = m.
Proof.
  unfold leave. destruct m as [l [r|e]]; [|reflexivity].
  rewrite !bind_run. simpl. by rewrite !app_nil_r.
Qed.

Lemma content_stage_declared (traffic : Traffic) (accept : string)
    (definition : RouteDefinition) (request : Request) (type : string)
    (content : ContentDefinition) :
  request_message (route_request definition) = BodyContent content →
  content_stage traffic accept definition request type
  = (result1 ← parse traffic request;
     match result1 with
     | None =>
         leave (raise_issue traffic accept "/traffic/request/unsupported-content" [])
     | Some value =>
         match safeParse (content_shape content) value with
         | ParseSuccess data =>
             proceed (Some {| content_type := type; content_data := data |})
         | ParseFailure error =>
             leave (raise_issue traffic accept "/traffic/request/invalid-content"
                      [ArgError error])
         end
     end).
Proof. intros H. unfold content_stage. by rewrite H. Qed.

Lemma raise_unsupported_content (traffic : Traffic) (accept : string) :
  builtin traffic "/traffic/request/unsupported-content" →
  raise_issue traffic accept "/traffic/request/unsupported-content" []
  = issueResponseFactory traffic accept
      (MkIssue "/traffic/request/unsupported-content" 400 (Some false) None
         [("description", JStr "Server is unable to parse the provided content.")])
      None.
Proof.
  intros Hb.
  by rewrite (raise_issue_builtin _ _ _ _ unsupported_content_issue
                (MkFields 400 (Some false) None
                   [("description",
                     JStr "Server is unable to parse the provided content.")])).
Qed.

(** X13. The body stage of a route that declares a body schema, by what
    [traffic.parse] does.  An exception of [parse] is not caught.  A
    [null] result is answered with the [unsupported-content] issue
    (status 400, [deflected = false]); a decoded value that the schema
    rejects with the [invalid-content] issue (status 400,
    [deflected = true]); a value that the schema accepts is handed on
    as [{ type, data }], where [data] is the output of the schema. *)
Theorem content_stage_outcomes (traffic : Traffic) (accept : string)
    (definition : RouteDefinition) (request : Request) (type : string)
    (content : ContentDefinition) :
  request_message (route_request definition) = BodyContent content →
  builtin traffic "/traffic/request/unsupported-content" →
  builtin traffic "/traffic/request/invalid-content" →
  (∀ log e, parse traffic request = (log, Thrown e) →
     content_stage traffic accept definition request type = (log, Thrown e))
  ∧ (parse traffic request = ([], Returned None) →
     ∃ log body,
       issueResponseFactory traffic accept
         (MkIssue "/traffic/request/unsupported-content" 400 (Some false) None
            [("description",
              JStr "Server is unable to parse the provided content.")]) None
       = (log, Returned (MkResponse 400 body None None))
       ∧ content_stage traffic accept definition request type
         = (log, Returned (inl (MkResponse 400 body None None))))
  ∧ (∀ value error,
       parse traffic request = ([], Returned (Some value)) →
       safeParse (content_shape content) value = ParseFailure error →
       ∃ log body,
         issueResponseFactory traffic accept
           (MkIssue "/traffic/request/invalid-content" 400 (Some true) None
              (validation_fields error)) None
         = (log, Returned (MkResponse 400 body None None))
         ∧ content_stage traffic accept definition request type
           = (log, Returned (inl (MkResponse 400 body None None))))
  ∧ (∀ value data,
       parse traffic request = ([], Returned (Some value)) →
       safeParse (content_shape content) value = ParseSuccess data →
       content_stage traffic accept definition request type
       = ([], Returned (inr (Some (MkContent type data))))).
Proof.
  intros Hdecl Hunsupported Hinvalid.
  rewrite (content_stage_declared _ _ _ _ _ _ Hdecl).
  split; [|split; [|split]].
  - intros log e ->. reflexivity.
  - intros ->. rewrite bind_returned, (raise_unsupported_content _ _ Hunsupported).
    destruct (issueResponseFactory_returns traffic accept
                (MkIssue "/traffic/request/unsupported-content" 400 (Some false) None
                   [("description",
                     JStr "Server is unable to parse the provided content.")]) None)
      as (log & body & Hr).
    exists log, body. split; [done|]. rewrite Hr. unfold leave.
    rewrite bind_run. simpl. by rewrite app_nil_r.
  - intros value error -> Hfail. rewrite bind_returned, Hfail.
    rewrite (raise_validation_issue _ _ _ _ Hinvalid) by done.
    destruct (issueResponseFactory_returns traffic accept
                (MkIssue "/traffic/request/invalid-content" 400 (Some true) None
                   (validation_fields error)) None)
      as (log & body & Hr).
    exists log, body. split; [done|]. rewrite Hr. unfold leave.
    rewrite bind_run. simpl. by rewrite app_nil_r.
  - intros value data -> Hok. by rewrite bind_returned, Hok.
Qed.

(** *** Routes that stop at the body *)

Lemma route_stops_at_body (this : Traffic) (definition : RouteDefinition)
    (handler : RouteHandler) (context : RawRouteContext) (type : string)
    (m : M Response) :
  first_violation definition context = None →
  content_type_stage (raw_traffic context) definition (raw_request context)
  = ([], Returned (inr type)) →
  content_stage (raw_traffic context) (accept_of this (raw_request context))
    definition (raw_request context) type = leave m →
  route this definition handler context = m.
Proof.
  intros Hvalid Htype Hbody.
  rewrite (route_continues_with_content _ _ _ _ _ Hvalid Htype), Hbody.
  rewrite and_then_leave. apply finish_leave.
Qed.

Lemma route_throws_at_body (this : Traffic) (definition : RouteDefinition)
    (handler : RouteHandler) (context : RawRouteContext) (type : string)
    (log : list LogEntry) (e : JsError) :
  first_violation definition context = None →
  content_type_stage (raw_traffic context) definition (raw_request context)
  = ([], Returned (inr type)) →
  content_stage (raw_traffic context) (accept_of this (raw_request context))
    definition (raw_request context) type = (log, Thrown e) →
  route this definition handler context = (log, Thrown e).
Proof.
  intros Hvalid Htype Hbody.
  by rewrite (route_continues_with_content _ _ _ _ _ Hvalid Htype), Hbody.
Qed.




(** X15. A declared request subtype that the codec does not know cannot
    reach the handler of a route with a body schema: a request whose
    suffix is in the declared list but is none of [json], [plain] and
    [form-data] passes the compatibility stage and is then answered
    with the [unsupported-content] issue, status 400. *)
Theorem unknown_codec_never_reaches_handler (this : Traffic)
    (definition : RouteDefinition) (context : RawRouteContext)
    (content : ContentDefinition) (type : string) (m : Mime) (suf : string) :
  first_violation definition context = None →
  header_get (raw_request context) "Content-Type" = Some type →
  type ≠ "" →
  new_Mime type = Returned m →
  suffix m = Some suf →
  In suf (mimes_of (request_mime (route_request definition))) →
  suf ≠ "json" → suf ≠ "plain" → suf ≠ "form-data" →
  request_message (route_request definition) = BodyContent content →
  parse (raw_traffic context) = Traffic_parse →
  builtin (raw_traffic context) "/traffic/request/unsupported-content" →
  ∃ log body,
    issueResponseFactory (raw_traffic context) (accept_of this (raw_request context))
      (MkIssue "/traffic/request/unsupported-content" 400 (Some false) None
         [("description",
           JStr "Server is unable to parse the provided content.")]) None
    = (log, Returned (MkResponse 400 body None None))
    ∧ ∀ handler : RouteHandler,
        route this definition handler context
        = (log, Returned (MkResponse 400 body None None)).
Proof.
  intros Hvalid Hct Hne Hm Hsuf Hin N1 N2 N3 Hdecl Hparse Hb.
  destruct (issueResponseFactory_returns (raw_traffic context)
              (accept_of this (raw_request context))
              (MkIssue "/traffic/request/unsupported-content" 400 (Some false) None
                 [("description",
                   JStr "Server is unable to parse the provided content.")]) None)
    as (log & body & Hr).
  simpl in Hr. exists log, body. split; [done|]. intros handler. rewrite <- Hr.
  assert (Hstage : content_type_stage (raw_traffic context) definition
                     (raw_request context)
                   = ([], Returned (inr (mime_type m)))).
  { unfold content_type_stage. rewrite Hct, (Mime_of_nonempty _ Hne), Hm.
    rewrite bind_lift, bind_ret. simpl default.
    rewrite (js_pop_suffix _ _ Hm), Hsuf.
    apply includes_In in Hin. by rewrite Hin. }
  apply (route_stops_at_body _ _ _ _ _ _ Hvalid Hstage).
  rewrite (content_stage_declared _ _ _ _ _ _ Hdecl), Hparse.
  rewrite (Traffic_parse_key _ _ _ Hne Hm Hct), (codec_key_suffix _ _ Hsuf).
  apply String.eqb_neq in N1, N2, N3. rewrite N1, N2, N3.
  rewrite bind_ret. by rewrite (raise_unsupported_content _ _ Hb).
Qed.

(** X16. Malformed JSON in the body is not answered with an issue: when a
    route with a body schema supports [json] and the body of a [json]
    request is text that [JSON.parse] rejects, the route throws the
    error of [JSON.parse], for every handler. *)
Theorem malformed_json_body_throws (this : Traffic)
    (definition : RouteDefinition) (handler : RouteHandler)
    (context : RawRouteContext)
    (content : ContentDefinition) (type : string) (m : Mime) (e : JsError) :
  first_violation definition context = None →
  header_get (raw_request context) "Content-Type" = Some type →
  type ≠ "" →
  new_Mime type = Returned m →
  suffix m = Some "json" →
  In "json" (mimes_of (request_mime (route_request definition))) →
  request_message (route_request definition) = BodyContent content →
  parse (raw_traffic context) = Traffic_parse →
  JSON_parse (request_body (raw_request context)) = Thrown e →
  route this definition handler context = ([], Thrown e).
Proof.
  intros Hvalid Hct Hne Hm Hsuf Hin Hdecl Hparse Hjson.
  assert (Hstage : content_type_stage (raw_traffic context) definition
                     (raw_request context)
                   = ([], Returned (inr (mime_type m)))).
  { unfold content_type_stage. rewrite Hct, (Mime_of_nonempty _ Hne), Hm.
    rewrite bind_lift, bind_ret. simpl default.
    rewrite (js_pop_suffix _ _ Hm), Hsuf.
    apply includes_In in Hin. by rewrite Hin. }
  apply (route_throws_at_body _ _ _ _ _ _ _ Hvalid Hstage).
  rewrite (content_stage_declared _ _ _ _ _ _ Hdecl), Hparse.
  rewrite (Traffic_parse_key _ _ _ Hne Hm Hct), (codec_key_suffix _ _ Hsuf).
  simpl. by rewrite Hjson.
Qed.

End BodyLaws.

(** ** The event, the response operation and issue responses *)

Section EventLaws.
Context {engine : Engine}.

Lemma Mime_of_silent (x : option string) : (Mime_of x).1 = [].
Proof.
  unfold Mime_of. destruct x as [s|]; [|done].
  destruct (truthy (Some s)); [|done]. by destruct (new_Mime s).
Qed.

Lemma content_type_stage_silent (traffic : Traffic) (definition : RouteDefinition)
    (request : Request) :
  (content_type_stage traffic definition request).1 = [].
Proof.
  unfold content_type_stage.
  pose proof (Mime_of_silent (header_get request "Content-Type")) as Hs.
  destruct (Mime_of (header_get request "Content-Type")) as [l [mime|e]];
    simpl in Hs; subst l; [|done].
  rewrite bind_returned.
  destruct (negb _); [|done].
  unfold leave.
  by destruct (Issues_new (issues traffic)
                 "/traffic/request/unsupported-content-type" _).
Qed.

(** X17. What the handler is given as [content].  If the route reaches its
    handler, then a route without a body schema has [content = null]
    and did not call [traffic.parse]: nothing was logged on the way.  A
    route with a body schema has [content = { type, data }], where
    [type] is the type the compatibility stage handed on and [data] is
    the output of the schema on the value that [traffic.parse]
    returned. *)
Theorem handler_receives_content (this : Traffic) (definition : RouteDefinition)
    (context : RawRouteContext) (log : list LogEntry) (event : RequestContext) :
  request_context this definition context = (log, Returned (inr event)) →
  match request_message (route_request definition) with
  | BodyRaw => log = [] ∧ ctx_content event = None
  | BodyContent content =>
      ∃ type value data,
        content_type_stage (raw_traffic context) definition (raw_request context)
        = ([], Returned (inr type))
        ∧ parse (raw_traffic context) (raw_request context)
          = (log, Returned (Some value))
        ∧ safeParse (content_shape content) value = ParseSuccess data
        ∧ ctx_content event = Some (MkContent type data)
  end.
Proof.
  intros H. pose proof (request_context_passed_valid _ _ _ _ _ H) as Hvalid.
  rewrite (request_context_valid this _ _ Hvalid) in H.
  apply and_then_passed in H as (l1 & type & l2 & Htype & H & ->).
  pose proof (content_type_stage_silent (raw_traffic context) definition
                (raw_request context)) as Hs.
  rewrite Htype in Hs. simpl in Hs. subst l1.
  apply and_then_passed in H as (l3 & content & l4 & Hbody & H & ->).
  unfold proceed in H. injection H as <- <-. simpl.
  unfold content_stage in Hbody.
  destruct (request_message (route_request definition)) as [|declared].
  - unfold proceed in Hbody. by injection Hbody as <- <-.
  - destruct (parse (raw_traffic context) (raw_request context))
      as [l [[value|]|e]]; [| |done].
    + rewrite bind_run in Hbody.
      destruct (safeParse (content_shape declared) value) as [data|error] eqn:Hp.
      * simpl in Hbody. injection Hbody as <- <-.
        exists type, value, data. by rewrite !app_nil_r.
      * exfalso. revert Hbody. unfold leave.
        destruct (raise_issue _ _ _ _) as [l' [r|e]]; simpl; [|done].
        intros [=].
    + exfalso. rewrite bind_run in Hbody. revert Hbody. unfold leave.
      destruct (raise_issue _ _ _ _) as [l' [r|e]]; simpl; [|done].
      intros [=].
Qed.

(** *** The response operation *)

(** X18. The lookup of the response operation is a first match in
    declaration order: it yields a definition exactly when that
    definition has the status and, as a single string, the mime that
    were asked for, and no definition before it has both.  A definition
    that repeats the pair of an earlier one is never located, and one
    whose mime is an array is never located at all. *)
Theorem find_response_first_match (definition : RouteDefinition) (status : Z)
    (type : string) (def : ResponseDefinition) :
  find_response definition status type = Some def
  ↔ ∃ before after,
      responses_of (route_response definition) = before ++ def :: after
      ∧ Forall (λ r, ¬ (response_status r = status
                         ∧ response_mime r = MimeOne type)) before
      ∧ response_status def = status
      ∧ response_mime def = MimeOne type.
Proof.
  unfold find_response.
  generalize (responses_of (route_response definition)) as responses.
  assert (Hmatch : ∀ r, (Z.eqb (response_status r) status
                         && mime_is (response_mime r) type = true)
                        ↔ (response_status r = status
                           ∧ response_mime r = MimeOne type)).
  { intros r. rewrite andb_true_iff, Z.eqb_eq. unfold mime_is.
    destruct (response_mime r) as [x|xs].
    - rewrite String.eqb_eq. split; intros [? ?]; split; congruence.
    - split; intros [? ?]; done. }
  induction responses as [|r rest IH]; simpl.
  - split; [done|]. intros (before & after & Heq & _).
    by destruct before.
  - destruct (Z.eqb (response_status r) status && mime_is (response_mime r) type)
      eqn:Hr.
    + apply Hmatch in Hr as [Hs Hm]. split.
      * intros [= <-]. exists [], rest. auto.
      * intros (before & after & Heq & Hbefore & _ & _).
        destruct before as [|b before]; simpl in Heq.
        -- by injection Heq as ->.
        -- injection Heq as <- _. inversion Hbefore; subst. tauto.
    + assert (Hno : ¬ (response_status r = status
                       ∧ response_mime r = MimeOne type)).
      { rewrite <- Hmatch, Hr. done. }
      rewrite IH. split.
      * intros (before & after & -> & Hbefore & ? & ?).
        exists (r :: before), after. repeat split; try done. by constructor.
      * intros (before & after & Heq & Hbefore & Hs & Hm).
        destruct before as [|b before]; simpl in Heq.
        -- injection Heq as -> _. tauto.
        -- injection Heq as <- ->. inversion Hbefore; subst. eauto 6.
Qed.

(** X19. The response operation on a pair that is declared hands to
    [Traffic.response], with the status the handler chose, the payload
    itself under a raw definition and the output of the schema (not the
    payload) under a definition whose schema accepts the payload;
    nothing is logged.  The call returns that response unless the
    [Response] constructor refuses it: a status that it reads (modulo
    2^16) outside 200..599 throws, and so does a body together with
    status 204, 205 or 304.  The members of the [headers] argument are
    spread into the init dictionary and do not become headers of the
    response. *)
Theorem response_sends_raw_or_validated (this : Traffic)
    (definition : RouteDefinition) (context : RawRouteContext)
    (passed : list LogEntry) (event : RequestContext)
    (status : Z) (type : string) (rawData : JsValue) (hs : option HeadersInit)
    (def : ResponseDefinition) (sent : JsValue) :
  request_context this definition context = (passed, Returned (inr event)) →
  find_response definition status type = Some def →
  (∀ name value, In (name, value) (default [] hs) →
     name ≠ "status" ∧ name ≠ "statusText" ∧ name ≠ "headers") →
  (response_message def = BodyRaw ∧ sent = rawData)
  ∨ (∃ content,
       response_message def = BodyContent content
       ∧ safeParse (content_shape content) rawData = ParseSuccess sent) →
  ((200 <= to_uint16 status <= 599)%Z →
   has_body sent = false ∨ null_body_status (to_uint16 status) = false →
   ctx_response event status type rawData hs
   = ([], Returned (MkResponse status sent None hs)))
  ∧ ((to_uint16 status < 200)%Z ∨ (599 < to_uint16 status)%Z →
     ∃ message,
       ctx_response event status type rawData hs
       = ([], Thrown (RangeError message)))
  ∧ ((200 <= to_uint16 status <= 599)%Z →
     has_body sent = true → null_body_status (to_uint16 status) = true →
     ∃ message,
       ctx_response event status type rawData hs
       = ([], Thrown (TypeError message))).
Proof.
  intros Hctx Hfind _ Hsent.
  destruct (request_context_binds _ _ _ _ _ Hctx) as (-> & _).
  assert (Hcall : responseFactory (raw_traffic context)
                    (accept_of this (raw_request context)) definition
                    status type rawData hs
                  = lift (Traffic_response status sent hs)).
  { unfold responseFactory. rewrite Hfind.
    destruct Hsent as [(-> & ->)|(content & -> & Hok)]; [done|by rewrite Hok]. }
  rewrite Hcall. unfold lift, Traffic_response.
  assert (Hin : (200 <= to_uint16 status <= 599)%Z →
                Z.ltb (to_uint16 status) 200 || Z.ltb 599 (to_uint16 status)
                = false).
  { intros [Hlo Hhi]. apply orb_false_intro; apply Z.ltb_ge; lia. }
  repeat split.
  - intros Hrange Hbody. rewrite (Hin Hrange).
    by destruct Hbody as [-> | ->]; rewrite ?andb_false_r.
  - intros Hout.
    assert (Hrange : Z.ltb (to_uint16 status) 200 || Z.ltb 599 (to_uint16 status)
                     = true).
    { apply orb_true_intro. destruct Hout; [left|right]; apply Z.ltb_lt; lia. }
    rewrite Hrange. eauto.
  - intros Hrange Hbody Hnull. rewrite (Hin Hrange), Hbody, Hnull. simpl. eauto.
Qed.

(** X20. A route whose response definitions all declare their mime as an
    array has no callable response: the lookup compares the array with
    the string that was asked for, so every call of the response
    operation throws. *)
Theorem array_mime_is_never_matched (this : Traffic)
    (definition : RouteDefinition) (context : RawRouteContext)
    (passed : list LogEntry) (event : RequestContext)
    (status : Z) (type : string) (rawData : JsValue) (hs : option HeadersInit) :
  request_context this definition context = (passed, Returned (inr event)) →
  Forall (λ r, ∃ mimes, response_mime r = MimeMany mimes)
         (responses_of (route_response definition)) →
  ctx_response event status type rawData hs
  = ([], Thrown (TypeError "Cannot read properties of undefined (reading 'raw')")).
Proof.
  intros Hctx Harrays.
  destruct (request_context_binds _ _ _ _ _ Hctx) as (-> & _).
  unfold responseFactory.
  destruct (find_response definition status type) as [def|] eqn:Hfind; [|done].
  exfalso. unfold find_response in Hfind. apply find_some in Hfind as [Hin Hm].
  rewrite Forall_forall in Harrays.
  destruct (Harrays def) as [mimes Hmimes]; [by apply list_elem_of_In|].
  rewrite Hmimes in Hm. simpl in Hm. by rewrite andb_false_r in Hm.
Qed.

End EventLaws.

(** ** Issue responses and the registry of an instance *)

Section IssueResponseLaws.
Context {engine : Engine}.



(** X23. The response to a schema violation is made by whatever factory the
    registry of the raw context holds under the code of the failing
    stage: its status is the status the factory returns, an exception
    of the factory (or a missing registration) is the exception of the
    route, and no handler runs in any of these cases. *)
Theorem violation_uses_registered_factory (this : Traffic)
    (definition : RouteDefinition) (handler : RouteHandler)
    (context : RawRouteContext) (issue_code : string) (error : ZodError) :
  first_violation definition context = Some (issue_code, error) →
  route this definition handler context
  = match factories (issues (raw_traffic context)) !! issue_code with
    | None => ([], Thrown (TypeError "this.issues[code] is not a function"))
    | Some factory =>
        match factory [ArgError error] with
        | Thrown e => ([], Thrown e)
        | Returned fields =>
            issueResponseFactory (raw_traffic context)
              (accept_of this (raw_request context))
              (MkIssue issue_code (fields_status fields)
                 (Some (default false (fields_deflected fields)))
                 (fields_headers fields) (fields_extra fields)) None
        end
    end.
Proof.
  intros Hfirst.
  rewrite (route_leaves _ _ _ _ _ (request_context_violation this _ _ _ _ Hfirst)).
  unfold raise_issue, Issues_new.
  destruct (factories (issues (raw_traffic context)) !! issue_code) as [factory|];
    [|done].
  destruct (factory [ArgError error]) as [fields|e]; [|done].
  unfold lift. by rewrite bind_returned.
Qed.

(** X3. The registry of [new Traffic(options)]: a code of [options.issues]
    is served by the factory given there, also when it is the code of a
    built-in issue; every other code is served as the built-in table
    serves it.  The seven built-in codes are therefore registered in
    every instance, and the codecs and the default response type do not
    depend on the options. *)
Theorem new_Traffic_registry (custom : gmap string IssueFactory)
    (C : string) (args : list Arg) :
  Issues_new (issues (new_Traffic (Some custom))) C args
  = match custom !! C with
    | Some _ => Issues_new (MkIssues custom) C args
    | None => Issues_new (MkIssues trafficIssues) C args
    end
  ∧ (∀ options,
       is_Some (trafficIssues !! C) →
       is_Some (factories (issues (new_Traffic options)) !! C))
  ∧ (∀ options,
       parse (new_Traffic options) = Traffic_parse
       ∧ serialize (new_Traffic options) = Traffic_seralize
       ∧ defaultResponseType (new_Traffic options) = "application/json").
Proof.
  split; [|split].
  - unfold Issues_new, new_Traffic. simpl. rewrite lookup_union.
    destruct (custom !! C) as [f|] eqn:Hc.
    + by destruct (trafficIssues !! C).
    + by destruct (trafficIssues !! C).
  - intros options [f Hf]. unfold new_Traffic. simpl. rewrite lookup_union, Hf.
    destruct (default ∅ options !! C); simpl; eauto.
  - done.
Qed.

End IssueResponseLaws.

(** ** The further properties on closed requests *)

Section FurtherClosed.
Import Reference Examples.
#[local] Existing Instance engine.

Lemma Mime_parts_witness :
  ∃ suf,
    suffix (MkMime "application/ld+json" "application" "ld+json" "application/ld"
              (Some "json") []) = Some suf
    ∧ suf ≠ "".
Proof.
  destruct (@Mime_parts engine "application/ld+json"
              (MkMime "application/ld+json" "application" "ld+json"
                      "application/ld" (Some "json") []))
    as (suf & Hsuf & Hne & _).
  - vm_compute. reflexivity.
  - exists suf. split; [exact Hsuf|exact Hne].
Defined.

Lemma Mime_type_decomposition_witness :
  ∃ suf after_subtype after_suffix,
    Some "json" = Some suf
    ∧ "application/ld+json" = "application" +:+ String "/" "ld+json" +:+ after_subtype
    ∧ "application/ld+json" = "application/ld" +:+ String "+" suf +:+ after_suffix
    ∧ (length (js_split "/" "application/ld+json") = 2%nat → after_subtype = "")
    ∧ (length (js_split "+" "application/ld+json") = 2%nat → after_suffix = "").
Proof.
  apply (@Mime_type_decomposition engine "application/ld+json"
           (MkMime "application/ld+json" "application" "ld+json" "application/ld"
                   (Some "json") [])).
  vm_compute. reflexivity.
Defined.

Lemma Traffic_parse_outcomes_witness :
  Traffic_parse (raw_request broken_note)
  = match JSON_parse (request_body (raw_request broken_note)) with
    | Returned value => ([], Returned (Some value))
    | Thrown e => ([], Thrown e)
    end.
Proof.
  apply (proj2 (proj2 (@Traffic_parse_outcomes engine (raw_request broken_note)))
           "application/ld+json"
           (MkMime "application/ld+json" "application" "ld+json" "application/ld"
                   (Some "json") [])
           "json").
  - reflexivity.
  - discriminate.
  - vm_compute. reflexivity.
  - reflexivity.
Defined.

Lemma Traffic_seralize_outcomes_witness :
  Traffic_seralize JUndefined "application/ld+json" = ([], Returned (Some JUndefined)).
Proof.
  apply (proj2 (proj2 (@Traffic_seralize_outcomes engine JUndefined
                         "application/ld+json"))
           (MkMime "application/ld+json" "application" "ld+json" "application/ld"
                   (Some "json") [])
           "json").
  - discriminate.
  - vm_compute. reflexivity.
  - reflexivity.
Defined.

Lemma validate_fields_proceeds_witness :
  [] = @nil LogEntry
  ∧ (∀ key schema, (key, schema) ∈ [("id", SchemaZod zod_numeric)] →
       ∃ data, safeParse (field_shape schema) (param_value good key)
               = ParseSuccess data
               ∧ ({[ "id" := JNum 7 ]} : gmap string JsValue) !! key = Some data)
  ∧ (∀ key, key ∉ [("id", SchemaZod zod_numeric)].*1 →
       ({[ "id" := JNum 7 ]} : gmap string JsValue) !! key = None).
Proof.
  apply (validate_fields_proceeds traffic "application/json"
           "/traffic/request/invalid-params" field_shape (param_value good)
           [("id", SchemaZod zod_numeric)] [] {[ "id" := JNum 7 ]}).
  - apply (bool_decide_unpack _). vm_compute. exact I.
  - vm_compute. reflexivity.
Defined.

Lemma content_type_stage_by_suffix_witness :
  content_type_stage traffic json_route (raw_request good)
  = ([], Returned (inr "application/vnd.api+json")).
Proof.
  apply (proj1 (@content_type_stage_by_suffix engine traffic json_route
                  (raw_request good) "application/vnd.api+json"
                  (MkMime "application/vnd.api+json" "application" "vnd.api+json"
                          "application/vnd.api" (Some "json") [])
                  "json" eq_refl ltac:(discriminate)
                  ltac:(vm_compute; reflexivity) eq_refl
                  ltac:(vm_compute; reflexivity))).
  simpl. left. reflexivity.
Defined.

Lemma handler_receives_validated_fields_witness :
  ∃ event,
    request_context traffic users_route good = ([], Returned (inr event))
    ∧ (∃ data, safeParse (field_shape (SchemaZod zod_numeric))
                 (or_undefined (raw_params good !! "id")) = ParseSuccess data
               ∧ ctx_params event !! "id" = Some data)
    ∧ ctx_params event !! "page" = None.
Proof.
  eexists. split; [reflexivity|].
  edestruct (@handler_receives_validated_fields engine traffic users_route good [])
    as ((Hin & Hout) & _).
  - reflexivity.
  - apply (bool_decide_unpack _). vm_compute. exact I.
  - apply (bool_decide_unpack _). vm_compute. exact I.
  - apply (bool_decide_unpack _). vm_compute. exact I.
  - split.
    + apply (Hin "id" (SchemaZod zod_numeric)). constructor.
    + apply (Hout "page"). apply (bool_decide_unpack _). vm_compute. exact I.
Defined.

Lemma route_throws_without_suffix_witness :
  ∃ e, new_Mime "application/json" = Thrown e
       ∧ route traffic json_route greet bare_json = ([], Thrown e).
Proof.
  apply (@route_throws_without_suffix engine traffic json_route greet bare_json
           "application/json").
  - vm_compute. reflexivity.
  - reflexivity.
  - discriminate.
  - intros parsed H. vm_compute in H. injection H as <-. reflexivity.
Defined.

Lemma route_rejects_unsupported_suffix_witness :
  route traffic json_route greet suffixed_xml
  = ([], Returned
      (MkResponse 400
         (or_undefined (JSON_stringify (issue_to_js
            (MkIssue "/traffic/request/unsupported-content-type" 400 (Some true)
               None
               (unsupported_content_type_fields
                  (JArr (JStr <$> mimes_of
                                    (request_mime (route_request json_route)))))))))
         None None)).
Proof.
  apply (@route_rejects_unsupported_suffix engine traffic json_route greet
           suffixed_xml "application/atom+xml"
           (MkMime "application/atom+xml" "application" "atom+xml"
                   "application/atom" (Some "xml") [])
           "xml").
  - vm_compute. reflexivity.
  - reflexivity.
  - discriminate.
  - vm_compute. reflexivity.
  - reflexivity.
  - vm_compute. reflexivity.
  - simpl. intros [H|[]]. discriminate H.
Defined.

Lemma content_stage_outcomes_witness :
  content_stage traffic "application/json" notes_route (raw_request good_note)
    "application/ld+json"
  = ([], Returned (inr (Some (MkContent "application/ld+json"
                                (JObj [("name", JStr "a")]))))).
Proof.
  apply (proj2 (proj2 (proj2
           (@content_stage_outcomes engine traffic "application/json" notes_route
              (raw_request good_note) "application/ld+json"
              (ContentShape [("name", zod_string)]) eq_refl
              ltac:(vm_compute; reflexivity) ltac:(vm_compute; reflexivity))))
           (JObj [("name", JStr "a")]) (JObj [("name", JStr "a")])).
  - vm_compute. reflexivity.
  - vm_compute. reflexivity.
Defined.


Lemma unknown_codec_never_reaches_handler_witness :
  ∃ log body,
    issueResponseFactory (raw_traffic xml_note) (accept_of traffic (raw_request xml_note))
      (MkIssue "/traffic/request/unsupported-content" 400 (Some false) None
         [("description",
           JStr "Server is unable to parse the provided content.")]) None
    = (log, Returned (MkResponse 400 body None None))
    ∧ ∀ handler : RouteHandler,
        route traffic notes_route handler xml_note
        = (log, Returned (MkResponse 400 body None None)).
Proof.
  apply (@unknown_codec_never_reaches_handler engine traffic notes_route xml_note
           (ContentShape [("name", zod_string)]) "application/atom+xml"
           (MkMime "application/atom+xml" "application" "atom+xml"
                   "application/atom" (Some "xml") [])
           "xml").
  - vm_compute. reflexivity.
  - reflexivity.
  - discriminate.
  - vm_compute. reflexivity.
  - reflexivity.
  - simpl. right. left. reflexivity.
  - discriminate.
  - discriminate.
  - discriminate.
  - reflexivity.
  - reflexivity.
  - vm_compute. reflexivity.
Defined.

Lemma malformed_json_body_throws_witness :
  route traffic notes_route greet broken_note
  = ([], Thrown (SyntaxError "Unexpected token in JSON")).
Proof.
  apply (@malformed_json_body_throws engine traffic notes_route greet broken_note
           (ContentShape [("name", zod_string)]) "application/ld+json"
           (MkMime "application/ld+json" "application" "ld+json" "application/ld"
                   (Some "json") [])).
  - vm_compute. reflexivity.
  - reflexivity.
  - discriminate.
  - vm_compute. reflexivity.
  - reflexivity.
  - simpl. left. reflexivity.
  - reflexivity.
  - reflexivity.
  - vm_compute. reflexivity.
Defined.

Lemma handler_receives_content_witness :
  ∃ event,
    request_context traffic notes_route good_note = ([], Returned (inr event))
    ∧ ∃ type value data,
        content_type_stage (raw_traffic good_note) notes_route (raw_request good_note)
        = ([], Returned (inr type))
        ∧ parse (raw_traffic good_note) (raw_request good_note)
          = ([], Returned (Some value))
        ∧ safeParse (content_shape (ContentShape [("name", zod_string)])) value
          = ParseSuccess data
        ∧ ctx_content event = Some (MkContent type data).
Proof.
  eexists. split; [reflexivity|].
  apply (@handler_receives_content engine traffic notes_route good_note []).
  reflexivity.
Defined.

Lemma response_sends_raw_or_validated_witness :
  ∃ event,
    request_context traffic users_route good = ([], Returned (inr event))
    ∧ ctx_response event 204 "json" JUndefined (Some [("x-trace", "1")])
      = ([], Returned (MkResponse 204 JUndefined None (Some [("x-trace", "1")]))).
Proof.
  eexists. split; [reflexivity|].
  eapply (proj1 (@response_sends_raw_or_validated engine traffic users_route good
                   [] _ 204 "json" JUndefined (Some [("x-trace", "1")])
                   no_content JUndefined eq_refl eq_refl _ _)).
  - vm_compute. split; discriminate.
  - left. reflexivity.
  Unshelve.
  + simpl. intros name value [[= <- _]|[]]. repeat split; discriminate.
  + left. split; reflexivity.
Defined.

(** A payload under the raw 204 definition is refused by the
    constructor, and so is every payload under a declared status that
    is no status of a response: the call throws. *)
Example constructor_refuses_the_call :
  (∃ message,
     responseFactory traffic "application/json" users_route 204 "json"
       (JStr "anything") None
     = ([], Thrown (TypeError message)))
  ∧ (∃ message,
       responseFactory traffic "application/json" continue_route 100 "json"
         JUndefined None
       = ([], Thrown (RangeError message))).
Proof. split; eexists; vm_compute; reflexivity. Qed.

Lemma array_mime_is_never_matched_witness :
  ∃ event,
    request_context traffic array_route good = ([], Returned (inr event))
    ∧ ctx_response event 200 "json" JNull None
      = ([], Thrown (TypeError "Cannot read properties of undefined (reading 'raw')")).
Proof.
  eexists. split; [reflexivity|].
  eapply (@array_mime_is_never_matched engine traffic array_route good []).
  - reflexivity.
  - repeat constructor. eexists. reflexivity.
Defined.


Lemma violation_uses_registered_factory_witness :
  route traffic users_route greet bad_id_strict
  = match factories (issues (raw_traffic bad_id_strict))
            !! "/traffic/request/invalid-params" with
    | None => ([], Thrown (TypeError "this.issues[code] is not a function"))
    | Some factory =>
        match factory [ArgError (MkZodError (MkZodIssue "invalid_type" []
                                   "Expected number, received string") [])] with
        | Thrown e => ([], Thrown e)
        | Returned fields =>
            issueResponseFactory (raw_traffic bad_id_strict)
              (accept_of traffic (raw_request bad_id_strict))
              (MkIssue "/traffic/request/invalid-params" (fields_status fields)
                 (Some (default false (fields_deflected fields)))
                 (fields_headers fields) (fields_extra fields)) None
        end
    end.
Proof.
  apply (@violation_uses_registered_factory engine traffic users_route greet
           bad_id_strict).
  vm_compute. reflexivity.
Defined.

(** The replaced factory decides the status: 422, with [deflected]
    defaulted to [false]. *)
Example replaced_factory_decides_status :
  route traffic users_route greet bad_id_strict
  = ([serialize_failed (Some (CauseError (PlainError "Invalid mime type.")))],
     Returned (MkResponse 422 JUndefined None None)).
Proof. vm_compute. reflexivity. Qed.

End FurtherClosed.
